(** * Habit tracker: the streak and statistics engine of [app.py]

    A shallow embedding of the statistics helpers of the Flask backend
    ([calculate_streak], [get_completion_rate], [get_best_weekday]) and of
    the overview route ([get_overview_stats]), together with the SQLite
    queries they run, and the properties of the specification proved (or
    refuted) on them.  The routes that write ([create_record],
    [delete_habit], [create_category], the categories of [init_db]) and
    that list ([get_records], [get_heatmap], [get_habit],
    [get_comparison_stats], the [completed_today] field of [get_habits])
    follow, with further properties of the code.

    Modelling conventions.
    - The SQLite file is a value of type [database]: the rows of [habits]
      and of [records], in insertion order.  Only the columns the engine
      reads are kept.
    - A calendar date is its proleptic Gregorian ordinal, the integer that
      Python's [date.toordinal()] returns; [today - timedelta(days=k)] is
      then [today - k] and [(d1 - d2).days] is [d1 - d2].  The [date]
      column holds ISO-8601 text ([isoformat()] is what [create_record]
      writes by default), on which SQLite's text comparison coincides with
      the calendar order, so [ORDER BY date] and [date >= ?] are read on
      ordinals ([toordinal_lt], [toordinal_inj]).
    - The functions are first given on all ordinals and all integers.  Two
      limits of the platform make a call raise [OverflowError] before it
      reads or writes anything: [datetime] has no date outside the years
      1..9999, and [sqlite3] binds no integer outside 64 bits.  The
      functions named [_bounded] are the calls with these limits; within
      the limits they are the functions given first.
    - [datetime.now().date()] is the explicit parameter [today].
    - Python integers are [Z]; Python floats are IEEE-754 binary64 values,
      given by the [spec_float] type of the standard library.
    - A Python exception is the [Err] arm of [result]. *)

From Stdlib Require Import ZArith Lia.
From Stdlib Require Import Floats.SpecFloat.
From stdpp Require Import base decidable numbers list sorting strings.

Local Open Scope Z_scope.

(** ** Calendar dates *)

(** [datetime.date], by ordinal: day 1 is 0001-01-01. *)
Abbreviation date := Z.

Module PyDate.

(** The helpers of Python's [datetime] that give a date its ordinal. *)

Definition is_leap (year : Z) : bool :=
  (year mod 4 =? 0) && (negb (year mod 100 =? 0) || (year mod 400 =? 0)).

Definition days_before_year (year : Z) : Z :=
  let y := year - 1 in
  y * 365 + y / 4 - y / 100 + y / 400.

(** [_DAYS_IN_MONTH] and [_DAYS_BEFORE_MONTH], indexed by the month 1..12;
    index 0 is a placeholder. *)
Definition DAYS_IN_MONTH : list Z :=
  [-1; 31; 28; 31; 30; 31; 30; 31; 31; 30; 31; 30; 31].

Definition DAYS_BEFORE_MONTH : list Z :=
  [-1; 0; 31; 59; 90; 120; 151; 181; 212; 243; 273; 304; 334].

Definition days_in_month (year month : Z) : Z :=
  if (month =? 2) && is_leap year then 29
  else nth (Z.to_nat month) DAYS_IN_MONTH 0.

Definition days_before_month (year month : Z) : Z :=
  nth (Z.to_nat month) DAYS_BEFORE_MONTH 0
  + (if (2 <? month) && is_leap year then 1 else 0).

(** [date(year, month, day).toordinal()] *)
Definition ymd2ord (year month day : Z) : date :=
  days_before_year year + days_before_month year month + day.

(** A date as its ISO text [YYYY-MM-DD] spells it. *)
Record ymd := YMD { year : Z; month : Z; day : Z }.

(** The triples [strptime(_, '%Y-%m-%d')] accepts. *)
Definition valid_ymd (a : ymd) : Prop :=
  1 ≤ year a ∧ 1 ≤ month a ≤ 12 ∧ 1 ≤ day a ≤ days_in_month (year a) (month a).

(** The order of the fixed-width ISO text: year, then month, then day. *)
Definition ymd_lt (a b : ymd) : Prop :=
  year a < year b
  ∨ (year a = year b
     ∧ (month a < month b ∨ (month a = month b ∧ day a < day b))).

Definition toordinal (a : ymd) : date := ymd2ord (year a) (month a) (day a).

(** SQLite's [CAST(strftime('%w', date) AS INTEGER)]: 0 is Sunday.
    Day 1 (0001-01-01) is a Monday. *)
Definition strftime_w (d : date) : Z := d mod 7.

End PyDate.

(** ** The store *)

(** A row of [records]: [habit_id], [date], [completed]. *)
Record record := Record_ {
  habit_id : Z;
  rdate : date;
  completed : Z
}.

(** A row of [habits]: [id], [active]. *)
Record habit := Habit {
  id : Z;
  active : Z
}.

Record database := Database {
  habits : list habit;
  records : list record
}.

(** [UNIQUE(habit_id, date)] on [records]. *)
Definition records_unique (db : database) : Prop :=
  NoDup (map (λ r, (habit_id r, rdate r)) (records db)).

(** [WHERE habit_id = ? AND completed = 1] *)
Definition is_completed_of (hid : Z) (r : record) : Prop :=
  habit_id r = hid ∧ completed r = 1.

#[global] Instance is_completed_of_dec hid r : Decision (is_completed_of hid r).
Proof. unfold is_completed_of. apply _. Defined.

(** The completion history of a habit: the dates of its rows with
    [completed = 1], in table order. *)
Definition completed_dates (db : database) (hid : Z) : list date :=
  rdate <$> filter (is_completed_of hid) (records db).

(** [ORDER BY date DESC]: the later date first. *)
Definition date_desc : relation date := λ d1 d2, d2 ≤ d1.

#[global] Instance date_desc_dec : RelDecision date_desc.
Proof. intros d1 d2. unfold date_desc. apply _. Defined.

#[global] Instance date_desc_total : Total date_desc.
Proof. intros d1 d2. unfold date_desc. lia. Qed.

#[global] Instance date_desc_trans : Transitive date_desc.
Proof. intros d1 d2 d3. unfold date_desc. lia. Qed.

#[global] Instance date_desc_antisymm : AntiSymm (=) date_desc.
Proof. intros d1 d2. unfold date_desc. lia. Qed.

(** [SELECT date, completed FROM records
     WHERE habit_id = ? AND completed = 1 ORDER BY date DESC] *)
Definition select_completed_desc (db : database) (hid : Z) : list date :=
  merge_sort date_desc (completed_dates db hid).

(** ** [calculate_streak] *)

Record streak := Streak {
  current : Z;
  best : Z
}.

(** The first [for] loop: [current_streak] is the loop state, [break]
    returns it. *)
Fixpoint current_loop (today : date) (recs : list date) (current_streak : Z) : Z :=
  match recs with
  | [] => current_streak
  | record_date :: rest =>
      let expected_date := today - current_streak in
      if record_date =? expected_date
      then current_loop today rest (current_streak + 1)
      else current_streak
  end.

(** The second [for] loop: the state is [prev_date], [temp_streak] and
    [best_streak]; the value is the final [best_streak]. *)
Fixpoint best_loop (recs : list date) (prev_date : option date)
    (temp_streak best_streak : Z) : Z :=
  match recs with
  | [] => best_streak
  | record_date :: rest =>
      let continues :=
        match prev_date with
        | None => true
        | Some p => p - record_date =? 1
        end in
      if continues
      then best_loop rest (Some record_date)
             (temp_streak + 1) (Z.max best_streak (temp_streak + 1))
      else best_loop rest (Some record_date) 1 best_streak
  end.

Definition calculate_streak (db : database) (today : date) (hid : Z) : streak :=
  let recs := select_completed_desc db hid in
  match recs with
  | [] => {| current := 0; best := 0 |}
  | _ =>
      let current_streak := current_loop today recs 0 in
      let best_streak := best_loop recs None 0 0 in
      {| current := current_streak; best := Z.max best_streak current_streak |}
  end.

(** ** Exceptions *)

Inductive exception := ZeroDivisionError | IndexError | OverflowError.

Inductive result (A : Type) : Type :=
  | Ok (a : A)
  | Err (e : exception).
Arguments Ok {A} a.
Arguments Err {A} e.

#[global] Instance result_ret : MRet result := λ A a, Ok a.
#[global] Instance result_bind : MBind result := λ A B f m,
  match m with
  | Ok a => f a
  | Err e => Err e
  end.

(** [l[i]] on a Python list: a negative index counts from the end. *)
Definition py_index {A} (l : list A) (i : Z) : result A :=
  let j := if i <? 0 then i + Z.of_nat (length l) else i in
  if j <? 0 then Err IndexError
  else match l !! Z.to_nat j with
       | Some x => Ok x
       | None => Err IndexError
       end.

(** ** Python floats *)

Module PyFloat.

Abbreviation float := spec_float.

(** binary64 *)
Definition prec : Z := 53.
Definition emax : Z := 1024.

(** The float nearest to the quotient [n / d] of two positive integers,
    with sign [s]. *)
Definition nearest_quotient (s : bool) (n d : Z) : float :=
  let '(mz, ez, lz) := SFdiv_core_binary prec emax n 0 d 0 in
  binary_round_aux prec emax s mz ez lz.

(** [float(n)] *)
Definition of_int (n : Z) : float := binary_normalize prec emax n 0 false.

(** [a / b] on integers: true division, the correctly rounded quotient.
    A zero dividend gives a zero whose sign is the quotient's.  The
    [OverflowError] of a quotient beyond the float range needs a
    dividend above [2^1023], which no SQLite count reaches; the model
    has the IEEE overflow value there. *)
Definition int_truediv (a b : Z) : result float :=
  if b =? 0 then Err ZeroDivisionError
  else
    let negate := xorb (a <? 0) (b <? 0) in
    if a =? 0 then Ok (S754_zero negate)
    else Ok (nearest_quotient negate (Z.abs a) (Z.abs b)).

(** [x * y] on floats *)
Definition mul (x y : float) : float := SFmul prec emax x y.

(** [n / d] rounded to the nearest integer, ties to even ([0 <= n],
    [0 < d]). *)
Definition round_half_even (n d : Z) : Z :=
  let q := n / d in
  match 2 * (n mod d) ?= d with
  | Lt => q
  | Eq => if Z.even q then q else q + 1
  | Gt => q + 1
  end.

(** [round(x, ndigits)] for [0 <= ndigits]: the exact value of [x] is
    rounded half-even to [ndigits] decimal places, and the decimal
    obtained is converted back to the nearest float; zeros, infinities
    and NaN round to themselves.  (The [OverflowError] of a rounded value
    beyond the float range is out of reach of the values rounded here.) *)
Definition round (x : float) (ndigits : Z) : float :=
  match x with
  | S754_finite s m e =>
      let scale := 10 ^ ndigits in
      let k := if 0 <=? e then Zpos m * 2 ^ e * scale
               else round_half_even (Zpos m * scale) (2 ^ (- e)) in
      if k =? 0 then S754_zero s else nearest_quotient s k scale
  | _ => x
  end.

(** [x <= y] on floats *)
Definition leb (x y : float) : bool := SFleb x y.

End PyFloat.

Abbreviation float := PyFloat.float.

(** A JSON number as Python holds it: [int] or [float]. *)
Inductive number :=
  | Int (n : Z)
  | Float (f : float).

(** ** [get_completion_rate] *)

(** [SELECT COUNT( * ) as completed FROM records
     WHERE habit_id = ? AND date >= ? AND completed = 1] *)
Definition count_completed_since (db : database) (hid : Z) (start_date : date) : Z :=
  Z.of_nat (length (filter
    (λ r, habit_id r = hid ∧ start_date ≤ rdate r ∧ completed r = 1)
    (records db))).

Definition get_completion_rate (db : database) (today : date) (hid : Z)
    (days : Z) : result float :=
  let start_date := today - days in
  let completed := count_completed_since db hid start_date in
  q ← PyFloat.int_truediv completed days;
  mret (PyFloat.round (PyFloat.mul q (PyFloat.of_int 100)) 1).

(** The default argument [days=30]. *)
Definition get_completion_rate_default (db : database) (today : date) (hid : Z)
    : result float :=
  get_completion_rate db today hid 30.

(** ** [get_best_weekday] *)

Definition weekdays : list string :=
  ["Domingo"; "Segunda"; "Terça"; "Quarta"; "Quinta"; "Sexta"; "Sábado"]%string.

(** The [COUNT( * )] of one weekday group: the completed rows of the habit
    whose date falls on weekday [w]. *)
Definition weekday_count (db : database) (hid : Z) (w : Z) : Z :=
  Z.of_nat (length (filter
    (λ r, is_completed_of hid r ∧ PyDate.strftime_w (rdate r) = w)
    (records db))).

(** [GROUP BY weekday]: one row [(weekday, count)] for each weekday that
    has a row, by ascending weekday. *)
Definition group_by_weekday (db : database) (hid : Z) : list (Z * Z) :=
  filter (λ g, 0 < g.2)
    ((λ w, (w, weekday_count db hid w)) <$> [0; 1; 2; 3; 4; 5; 6]).

(** [ORDER BY count DESC].  SQL leaves the order of groups of equal count
    open; SQLite returns first, among such groups, the one of the highest
    weekday, and the order here does the same. *)
Definition count_desc : relation (Z * Z) :=
  λ g1 g2, g2.2 < g1.2 ∨ (g2.2 = g1.2 ∧ g2.1 ≤ g1.1).

#[global] Instance count_desc_dec : RelDecision count_desc.
Proof. intros g1 g2. unfold count_desc. apply _. Defined.

#[global] Instance count_desc_total : Total count_desc.
Proof. intros g1 g2. unfold count_desc. lia. Qed.

#[global] Instance count_desc_trans : Transitive count_desc.
Proof. intros g1 g2 g3. unfold count_desc. lia. Qed.

(** The query of [get_best_weekday], with [LIMIT 1] and [fetchone()]. *)
Definition select_best_weekday (db : database) (hid : Z) : option (Z * Z) :=
  head (merge_sort count_desc (group_by_weekday db hid)).

(** [None] is Python's [None]. *)
Definition get_best_weekday (db : database) (hid : Z) : result (option string) :=
  match select_best_weekday db hid with
  | Some (weekday, _) => label ← py_index weekdays weekday; mret (Some label)
  | None => mret None
  end.

(** ** [get_overview_stats] *)

Record overview := Overview {
  total_habits : Z;
  completed_today : Z;
  completion_rate_today : number;
  average_streak : number;
  total_completions : Z
}.

(** [SELECT id FROM habits WHERE active = 1] *)
Definition active_habit_ids (db : database) : list Z :=
  id <$> filter (λ h, active h = 1) (habits db).

(** [SELECT COUNT( * ) as total FROM habits WHERE active = 1] *)
Definition count_active_habits (db : database) : Z :=
  Z.of_nat (length (filter (λ h, active h = 1) (habits db))).

(** [SELECT COUNT(DISTINCT habit_id) as completed FROM records
     WHERE date = ? AND completed = 1] *)
Definition count_completed_today (db : database) (today : date) : Z :=
  Z.of_nat (length (remove_dups
    (habit_id <$> filter (λ r, rdate r = today ∧ completed r = 1) (records db)))).

(** [SELECT COUNT( * ) as total FROM records WHERE completed = 1] *)
Definition count_completions (db : database) : Z :=
  Z.of_nat (length (filter (λ r, completed r = 1) (records db))).

(** The loop [for hid in habit_ids: total_streak += ...]. *)
Definition sum_current_streaks (db : database) (today : date)
    (habit_ids : list Z) : Z :=
  foldl (λ total_streak hid,
           total_streak + current (calculate_streak db today hid))
        0 habit_ids.

Definition get_overview_stats (db : database) (today : date) : result overview :=
  let total := count_active_habits db in
  let done_today := count_completed_today db today in
  let habit_ids := active_habit_ids db in
  let total_streak := sum_current_streaks db today habit_ids in
  avg_streak ←
    match habit_ids with
    | [] => mret (Int 0)
    | _ => q ← PyFloat.int_truediv total_streak (Z.of_nat (length habit_ids));
           mret (Float (PyFloat.round q 1))
    end;
  let completions := count_completions db in
  rate_today ←
    (if 0 <? total
     then q ← PyFloat.int_truediv done_today total;
          mret (Float (PyFloat.round (PyFloat.mul q (PyFloat.of_int 100)) 1))
     else mret (Int 0));
  mret {| total_habits := total;
          completed_today := done_today;
          completion_rate_today := rate_today;
          average_streak := avg_streak;
          total_completions := completions |}.

(** ** The specification's algorithms, as worded *)

Module Spec.

(** A descending enumeration of a habit's completion history. *)
Definition descending_history (db : database) (hid : Z) (ds : list date) : Prop :=
  Sorted date_desc ds ∧ ds ≡ₚ completed_dates db hid.

(** Current streak: [expected] starts at today; a date equal to
    [expected] increments [current] and moves [expected] back one day;
    the first mismatch stops the walk. *)
Fixpoint current_walk (expected : date) (current : Z) (dates : list date) : Z :=
  match dates with
  | [] => current
  | d :: rest =>
      if d =? expected then current_walk (expected - 1) (current + 1) rest
      else current
  end.

(** Best streak: the values of [temp] after the first date, which has
    [temp = 1]: the run continues when the previous date is one day
    later, and restarts at 1 otherwise. *)
Fixpoint temps_from (prev_date : date) (temp : Z) (dates : list date) : list Z :=
  match dates with
  | [] => []
  | d :: rest =>
      let temp' := if prev_date - d =? 1 then temp + 1 else 1 in
      temp' :: temps_from d temp' rest
  end.

Definition temps (dates : list date) : list Z :=
  match dates with
  | [] => []
  | d :: rest => 1 :: temps_from d 1 rest
  end.

(** [countCompletedSince], on the history. *)
Definition count_completed_since (history : list date) (since : date) : Z :=
  Z.of_nat (length (filter (λ d, since ≤ d) history)).

(** [round(count / days * 100, 1)] *)
Definition rate (count days : Z) : result float :=
  q ← PyFloat.int_truediv count days;
  mret (PyFloat.round (PyFloat.mul q (PyFloat.of_int 100)) 1).

(** The bucket of weekday [w]: the completed dates that fall on it. *)
Definition bucket_count (history : list date) (w : Z) : Z :=
  Z.of_nat (length (filter (λ d, PyDate.strftime_w d = w) history)).

End Spec.

(** ** [create_record] *)

(** The body of [POST /api/records]: [habit_id] is required, [date] and
    [completed] are read with [data.get] and a default.  [notes] goes to a
    column that is not kept. *)
Record record_request := RecordRequest {
  req_habit_id : Z;
  req_date : option date;
  req_completed : option Z
}.

(** The two answers of the route: 201 "Registro criado com sucesso" and
    200 "Registro atualizado com sucesso". *)
Inductive record_response := RecordCreated | RecordUpdated.

(** The pair that [UNIQUE(habit_id, date)] constrains. *)
Definition record_key (r : record) : Z * date := (habit_id r, rdate r).

(** [WHERE habit_id = ? AND date = ?] *)
Definition has_key (hid : Z) (d : date) (r : record) : Prop :=
  habit_id r = hid ∧ rdate r = d.

#[global] Instance has_key_dec hid d r : Decision (has_key hid d r).
Proof. unfold has_key. apply _. Defined.

(** [INSERT INTO records (habit_id, date, completed, notes) VALUES ...]:
    [None] is the [sqlite3.IntegrityError] of [UNIQUE(habit_id, date)].
    No foreign key is enforced: the connection never turns
    [PRAGMA foreign_keys] on. *)
Definition insert_record (db : database) (r : record) : option database :=
  if decide (Exists (has_key (habit_id r) (rdate r)) (records db)) then None
  else Some {| habits := habits db; records := records db ++ [r] |}.

(** [UPDATE records SET completed = ?, notes = ?
     WHERE habit_id = ? AND date = ?] *)
Definition set_completed (hid : Z) (d : date) (c : Z) (r : record) : record :=
  if decide (has_key hid d r)
  then {| habit_id := habit_id r; rdate := rdate r; completed := c |}
  else r.

Definition update_record (db : database) (hid : Z) (d : date) (c : Z) : database :=
  {| habits := habits db; records := set_completed hid d c <$> records db |}.

(** The route: insert, and on [IntegrityError] update the row in place. *)
Definition create_record (db : database) (today : date) (req : record_request)
    : database * record_response :=
  let date := default today (req_date req) in
  let completed_value := default 1 (req_completed req) in
  match insert_record db {| habit_id := req_habit_id req;
                            rdate := date;
                            completed := completed_value |} with
  | Some db' => (db', RecordCreated)
  | None =>
      (update_record db (req_habit_id req) date completed_value, RecordUpdated)
  end.

(** ** [delete_habit] *)

(** [UPDATE habits SET active = 0 WHERE id = ?] *)
Definition deactivate (hid : Z) (h : habit) : habit :=
  if decide (id h = hid) then {| id := id h; active := 0 |} else h.

Definition delete_habit (db : database) (hid : Z) : database :=
  {| habits := deactivate hid <$> habits db; records := records db |}.

(** ** [get_habit] *)

(** The three statistics the routes attach to a habit. *)
Record habit_statistics := HabitStatistics {
  stat_streak : streak;
  stat_completion_rate : float;
  stat_best_weekday : option string
}.

Definition statistics_of (db : database) (today : date) (hid : Z)
    : result habit_statistics :=
  let streak_value := calculate_streak db today hid in
  rate ← get_completion_rate_default db today hid;
  weekday ← get_best_weekday db hid;
  mret {| stat_streak := streak_value;
          stat_completion_rate := rate;
          stat_best_weekday := weekday |}.

(** [SELECT h.* ... FROM habits h ... WHERE h.id = ?] with [fetchone()]:
    the first row of that id, whatever its [active]; [None] is the 404
    answer "Hábito não encontrado". *)
Definition get_habit (db : database) (today : date) (hid : Z)
    : result (option (habit * habit_statistics)) :=
  match filter (λ h, id h = hid) (habits db) with
  | [] => mret None
  | row :: _ => stats ← statistics_of db today hid; mret (Some (row, stats))
  end.

(** ** [get_records] and [get_heatmap] *)

(** [WHERE habit_id = ? AND date >= ?] *)
Definition in_window (hid : Z) (start_date : date) (r : record) : Prop :=
  habit_id r = hid ∧ start_date ≤ rdate r.

#[global] Instance in_window_dec hid s r : Decision (in_window hid s r).
Proof. unfold in_window. apply _. Defined.

(** [ORDER BY date DESC] on rows. *)
Definition row_date_desc : relation record := λ r1 r2, rdate r2 ≤ rdate r1.

#[global] Instance row_date_desc_dec : RelDecision row_date_desc.
Proof. intros r1 r2. unfold row_date_desc. apply _. Defined.

#[global] Instance row_date_desc_total : Total row_date_desc.
Proof. intros r1 r2. unfold row_date_desc. lia. Qed.

#[global] Instance row_date_desc_trans : Transitive row_date_desc.
Proof. intros r1 r2 r3. unfold row_date_desc. lia. Qed.

(** [GET /api/records/<habit_id>]: [days] is
    [request.args.get('days', 30, type=int)], [None] when the parameter is
    absent or is not an integer;
    [SELECT * FROM records WHERE habit_id = ? AND date >= ?
     ORDER BY date DESC]. *)
Definition get_records (db : database) (today : date) (hid : Z)
    (days : option Z) : list record :=
  let start_date := today - default 30 days in
  merge_sort row_date_desc (filter (in_window hid start_date) (records db)).

(** A cell of the heatmap: [date] and [completed]. *)
Definition cell_of (r : record) : date * Z := (rdate r, completed r).

(** [ORDER BY date] on cells. *)
Definition cell_date_asc : relation (date * Z) := λ c1 c2, c1.1 ≤ c2.1.

#[global] Instance cell_date_asc_dec : RelDecision cell_date_asc.
Proof. intros c1 c2. unfold cell_date_asc. apply _. Defined.

#[global] Instance cell_date_asc_total : Total cell_date_asc.
Proof. intros c1 c2. unfold cell_date_asc. lia. Qed.

#[global] Instance cell_date_asc_trans : Transitive cell_date_asc.
Proof. intros c1 c2 c3. unfold cell_date_asc. lia. Qed.

(** [GET /api/records/heatmap/<habit_id>]:
    [SELECT date, completed FROM records WHERE habit_id = ? AND date >= ?
     ORDER BY date], from 365 days before today. *)
Definition get_heatmap (db : database) (today : date) (hid : Z) : list (date * Z) :=
  let start_date := today - 365 in
  merge_sort cell_date_asc
    (cell_of <$> filter (in_window hid start_date) (records db)).

(** ** [get_comparison_stats] *)

(** An entry of the comparison; the [name] of the habit, a column that
    is not kept, travels with the [id]. *)
Record comparison := Comparison {
  cmp_id : Z;
  cmp_current_streak : Z;
  cmp_best_streak : Z;
  cmp_completion_rate_30d : float
}.

(** The body of the loop over the active habits. *)
Definition comparison_of (db : database) (today : date) (hid : Z)
    : result comparison :=
  let streak_value := calculate_streak db today hid in
  rate ← get_completion_rate db today hid 30;
  mret {| cmp_id := hid;
          cmp_current_streak := current streak_value;
          cmp_best_streak := best streak_value;
          cmp_completion_rate_30d := rate |}.

(** [comparison.sort(key=lambda x: x['current_streak'], reverse=True)]:
    Python's sort is stable, also with [reverse=True], so an entry goes
    after the entries of a larger key and before the later entries of the
    same key. *)
Fixpoint insert_by_streak (x : comparison) (l : list comparison) : list comparison :=
  match l with
  | [] => [x]
  | y :: rest =>
      if decide (cmp_current_streak y ≤ cmp_current_streak x)
      then x :: y :: rest
      else y :: insert_by_streak x rest
  end.

(** The order the sort establishes: the larger current streak first. *)
Definition streak_desc : relation comparison :=
  λ e1 e2, cmp_current_streak e2 ≤ cmp_current_streak e1.

Definition sort_by_streak_desc (l : list comparison) : list comparison :=
  foldr insert_by_streak [] l.

Definition get_comparison_stats (db : database) (today : date)
    : result (list comparison) :=
  comparison_list ← mapM (comparison_of db today) (active_habit_ids db);
  mret (sort_by_streak_desc comparison_list).

(** ** The [completed_today] field of [get_habits] *)

(** [SELECT completed FROM records WHERE habit_id = ? AND date = ?] with
    [fetchone()], then [bool(today_record and today_record['completed'])]:
    the first row of that key, and the truth value of its [completed],
    which is that of an integer. *)
Definition completed_today_flag (db : database) (today : date) (hid : Z) : bool :=
  match filter (has_key hid today) (records db) with
  | [] => false
  | today_record :: _ => bool_decide (completed today_record ≠ 0)
  end.

(** ** Categories *)

(** A row of [categories]: [name], [color], [icon]. *)
Record category := Category {
  cat_name : string;
  cat_color : string;
  cat_icon : string
}.

(** [INSERT INTO categories (name, color, icon) VALUES (?, ?, ?)]:
    [None] is the [sqlite3.IntegrityError] of [name TEXT NOT NULL UNIQUE]. *)
Definition insert_category (table : list category) (c : category)
    : option (list category) :=
  if decide (cat_name c ∈ cat_name <$> table) then None else Some (table ++ [c]).

(** [INSERT OR IGNORE INTO categories ...] *)
Definition insert_or_ignore_category (table : list category) (c : category)
    : list category :=
  match insert_category table c with
  | Some table' => table'
  | None => table
  end.

Definition default_categories : list category :=
  [Category "Saúde" "#ef4444" "💪";
   Category "Estudo" "#3b82f6" "📚";
   Category "Trabalho" "#8b5cf6" "💼";
   Category "Bem-estar" "#10b981" "🧘";
   Category "Social" "#f59e0b" "👥";
   Category "Criatividade" "#ec4899" "🎨"]%string.

(** The loop of [init_db] over the default categories. *)
Definition init_categories (table : list category) : list category :=
  foldl insert_or_ignore_category table default_categories.

(** The body of [POST /api/categories]: [name] is required, [color] and
    [icon] have defaults. *)
Record category_request := CategoryRequest {
  creq_name : string;
  creq_color : option string;
  creq_icon : option string
}.

(** 201 "Categoria criada com sucesso" and 400 "Categoria já existe". *)
Inductive category_response := CategoryCreated | CategoryExists.

Definition create_category (table : list category) (req : category_request)
    : list category * category_response :=
  let row := {| cat_name := creq_name req;
                cat_color := default "#6366f1"%string (creq_color req);
                cat_icon := default "📌"%string (creq_icon req) |} in
  match insert_category table row with
  | Some table' => (table', CategoryCreated)
  | None => (table, CategoryExists)
  end.

(** ** What Python and SQLite refuse *)

(** [date.max.toordinal()]: 9999-12-31. *)
Definition MAXORDINAL : Z := 3652059.

(** The ordinals of [datetime.date]: 0001-01-01 to 9999-12-31. *)
Definition in_calendar (d : date) : Prop := 1 ≤ d ≤ MAXORDINAL.

#[global] Instance in_calendar_dec d : Decision (in_calendar d).
Proof. unfold in_calendar. apply _. Defined.

(** The largest magnitude of the [days] of a [timedelta]. *)
Definition MAX_DELTA_DAYS : Z := 999999999.

(** [(datetime.now() - timedelta(days=days)).date()]: [OverflowError]
    when [days] is no [timedelta] or the result is no date. *)
Definition sub_days (today : date) (days : Z) : result date :=
  if decide (Z.abs days ≤ MAX_DELTA_DAYS ∧ in_calendar (today - days))
  then Ok (today - days)
  else Err OverflowError.

(** SQLite's INTEGER: 64 bits, signed. *)
Definition in_int64 (n : Z) : Prop := - 2 ^ 63 ≤ n < 2 ^ 63.

#[global] Instance in_int64_dec n : Decision (in_int64 n).
Proof. unfold in_int64. apply _. Defined.

(** A Python [int] among the parameters of [cursor.execute]:
    "Python int too large to convert to SQLite INTEGER". *)
Definition bind_integer (n : Z) : result Z :=
  if decide (in_int64 n) then Ok n else Err OverflowError.

(** [get_completion_rate]: the start date is computed first, then the
    query binds [habit_id]. *)
Definition get_completion_rate_bounded (db : database) (today : date) (hid : Z)
    (days : Z) : result float :=
  start_date ← sub_days today days;
  habit ← bind_integer hid;
  let completed := count_completed_since db habit start_date in
  q ← PyFloat.int_truediv completed days;
  mret (PyFloat.round (PyFloat.mul q (PyFloat.of_int 100)) 1).

(** [get_habit]: the first query binds the id of the URL; the statistics
    of a habit that is found use the default window of 30 days. *)
Definition statistics_of_bounded (db : database) (today : date) (hid : Z)
    : result habit_statistics :=
  let streak_value := calculate_streak db today hid in
  rate ← get_completion_rate_bounded db today hid 30;
  weekday ← get_best_weekday db hid;
  mret {| stat_streak := streak_value;
          stat_completion_rate := rate;
          stat_best_weekday := weekday |}.

Definition get_habit_bounded (db : database) (today : date) (hid : Z)
    : result (option (habit * habit_statistics)) :=
  habit_id_value ← bind_integer hid;
  match filter (λ h, id h = habit_id_value) (habits db) with
  | [] => mret None
  | row :: _ =>
      stats ← statistics_of_bounded db today habit_id_value;
      mret (Some (row, stats))
  end.


(** [get_heatmap]: the start date, 365 days back, then the query. *)
Definition get_heatmap_bounded (db : database) (today : date) (hid : Z)
    : result (list (date * Z)) :=
  start_date ← sub_days today 365;
  habit ← bind_integer hid;
  mret (merge_sort cell_date_asc
          (cell_of <$> filter (in_window habit start_date) (records db))).

(** ** Scenarios *)

Definition jan (day : Z) : date := PyDate.ymd2ord 2024 1 day.

(** Habit 1 with completions on 2024-01-01, 01-02, 01-03 and 01-05, a
    row of 01-04 that is not completed, and a second habit. *)
Definition scenario_db : database :=
  {| habits := [Habit 1 1; Habit 2 1];
     records := [Record_ 1 (jan 3) 1; Record_ 2 (jan 4) 1; Record_ 1 (jan 1) 1;
                 Record_ 1 (jan 5) 1; Record_ 1 (jan 4) 0; Record_ 1 (jan 2) 1] |}.

(** Habit 1 completed on each of the nine days before [today], not on
    [today] itself. *)
Definition days_before (today : date) (n : nat) : list date :=
  (λ k, today - Z.of_nat k) <$> seq 1 n.

Definition not_today_db (today : date) : database :=
  {| habits := [Habit 1 1];
     records := (λ d, Record_ 1 d 1) <$> days_before today 9 |}.

(** Habit 1 completed today, on the nine days before, and on a date one
    day after [today]. *)
Definition future_db (today : date) : database :=
  {| habits := [Habit 1 1];
     records := (λ d, Record_ 1 d 1) <$> (today :: today + 1 :: days_before today 9) |}.

(** Habit 1 completed yesterday and today. *)
Definition two_day_db (today : date) : database :=
  {| habits := [Habit 1 1];
     records := [Record_ 1 (today - 1) 1; Record_ 1 today 1] |}.

(** Habit 1 completed on each of the 31 dates from [today - 30] to
    [today]. *)
Definition full_month_db (today : date) : database :=
  {| habits := [Habit 1 1];
     records := (λ d, Record_ 1 d 1) <$> (today :: days_before today 30) |}.

(** A store without habits. *)
Definition empty_db : database := {| habits := []; records := [] |}.

(** ** The order of ISO dates is the order of ordinals *)

Lemma days_before_year_succ y :
  PyDate.days_before_year (y + 1)
  = PyDate.days_before_year y + 365 + (if PyDate.is_leap y then 1 else 0).
Proof.
  unfold PyDate.days_before_year, PyDate.is_leap. cbv zeta.
  replace (y + 1 - 1) with y by lia.
  destruct (Z.eqb_spec (y mod 4) 0), (Z.eqb_spec (y mod 100) 0),
    (Z.eqb_spec (y mod 400) 0);
    simpl; Z.to_euclidean_division_equations; lia.
Qed.

Lemma days_before_year_mono y1 y2 :
  y1 ≤ y2 → PyDate.days_before_year y1 ≤ PyDate.days_before_year y2.
Proof.
  unfold PyDate.days_before_year. cbv zeta. intros H.
  Z.to_euclidean_division_equations; lia.
Qed.

Lemma month_cases m :
  1 ≤ m ≤ 12 →
  m = 1 ∨ m = 2 ∨ m = 3 ∨ m = 4 ∨ m = 5 ∨ m = 6
  ∨ m = 7 ∨ m = 8 ∨ m = 9 ∨ m = 10 ∨ m = 11 ∨ m = 12.
Proof. lia. Qed.

Ltac each_month m Hm :=
  destruct (month_cases m Hm)
    as [-> | [-> | [-> | [-> | [-> | [-> | [-> | [-> | [-> | [-> | [-> | ->]]]]]]]]]]].

(** The day of the year lies within the year. *)
Lemma day_of_year_bounds a :
  PyDate.valid_ymd a →
  1 ≤ PyDate.days_before_month (PyDate.year a) (PyDate.month a) + PyDate.day a
    ≤ 365 + (if PyDate.is_leap (PyDate.year a) then 1 else 0).
Proof.
  destruct a as [y m d]. unfold PyDate.valid_ymd. simpl. intros (Hy & Hm & Hd).
  unfold PyDate.days_in_month, PyDate.days_before_month in *.
  destruct (PyDate.is_leap y); each_month m Hm; simpl in *; lia.
Qed.

Lemma day_of_year_lt y m1 d1 m2 d2 :
  PyDate.valid_ymd (PyDate.YMD y m1 d1) → PyDate.valid_ymd (PyDate.YMD y m2 d2) →
  m1 < m2 →
  PyDate.days_before_month y m1 + d1 < PyDate.days_before_month y m2 + d2.
Proof.
  unfold PyDate.valid_ymd. simpl. intros (Hy & Hm1 & Hd1) (_ & Hm2 & Hd2) Hlt.
  unfold PyDate.days_in_month, PyDate.days_before_month in *.
  destruct (PyDate.is_leap y); each_month m1 Hm1; each_month m2 Hm2;
    simpl in *; lia.
Qed.

(** On valid dates the order of the ISO text is the order of the
    ordinals: reading [ORDER BY date] and [date >= ?] on ordinals is
    sound. *)
Lemma toordinal_lt a b :
  PyDate.valid_ymd a → PyDate.valid_ymd b →
  PyDate.ymd_lt a b → PyDate.toordinal a < PyDate.toordinal b.
Proof.
  intros Ha Hb Hlt. unfold PyDate.toordinal, PyDate.ymd2ord.
  destruct Hlt as [Hy | [Hy [Hm | [Hm Hd]]]].
  - pose proof (day_of_year_bounds a Ha). pose proof (day_of_year_bounds b Hb).
    pose proof (days_before_year_succ (PyDate.year a)).
    pose proof (days_before_year_mono (PyDate.year a + 1) (PyDate.year b)). lia.
  - destruct a as [y m1 d1], b as [y2 m2 d2]. simpl in *. subst y2.
    pose proof (day_of_year_lt y m1 d1 m2 d2 Ha Hb Hm). lia.
  - rewrite Hy, Hm. lia.
Qed.

(** Two valid dates with the same ordinal are the same date: comparing
    dates is comparing ordinals. *)
Lemma toordinal_inj a b :
  PyDate.valid_ymd a → PyDate.valid_ymd b →
  PyDate.toordinal a = PyDate.toordinal b → a = b.
Proof.
  intros Ha Hb Heq.
  destruct (decide (PyDate.ymd_lt a b)) as [Hlt | Hnlt].
  { pose proof (toordinal_lt a b Ha Hb Hlt). lia. }
  destruct (decide (PyDate.ymd_lt b a)) as [Hgt | Hngt].
  { pose proof (toordinal_lt b a Hb Ha Hgt). lia. }
  destruct a as [y1 m1 d1], b as [y2 m2 d2].
  unfold PyDate.ymd_lt in *. simpl in *.
  assert (y1 = y2) by lia. assert (m1 = m2) by lia. assert (d1 = d2) by lia.
  congruence.
Qed.

(** ** The calendar and the floats on known values *)

Example ymd2ord_values :
  PyDate.ymd2ord 1 1 1 = 1
  ∧ PyDate.ymd2ord 2023 12 31 = 738885
  ∧ PyDate.ymd2ord 2024 2 29 = 738945
  ∧ PyDate.ymd2ord 2024 3 1 = 738946
  ∧ jan 5 = 738890.
Proof. repeat split; reflexivity. Qed.

(** 2024-01-05 was a Friday. *)
Example strftime_w_friday : PyDate.strftime_w (jan 5) = 5.
Proof. reflexivity. Qed.

(** [round(1/3*100, 1)] is 33.3, the float [0x1.0a66666666666p+5], and
    [round(9/30*100, 1)] is 30.0, the float [0x1.ep+4]. *)
Example rate_values :
  Spec.rate 1 3 = Ok (S754_finite false 0x10a66666666666 (-47))
  ∧ Spec.rate 9 30 = Ok (S754_finite false 0x1e000000000000 (-48))
  ∧ PyFloat.of_int 30 = S754_finite false 0x1e000000000000 (-48).
Proof. repeat split; reflexivity. Qed.

(** [round] goes by the exact binary value: 0.25 is a tie and rounds to
    the even 0.2, 0.35 lies below the tie and rounds to 0.3. *)
Example round_ties :
  (q ← PyFloat.int_truediv 1 4; mret (PyFloat.round q 1)) = PyFloat.int_truediv 1 5
  ∧ (q ← PyFloat.int_truediv 35 100; mret (PyFloat.round q 1))
    = PyFloat.int_truediv 3 10.
Proof. split; reflexivity. Qed.

(** ** The query of [calculate_streak] *)

Lemma select_completed_desc_Sorted db hid :
  Sorted date_desc (select_completed_desc db hid).
Proof. apply Sorted_merge_sort, _. Qed.

Lemma select_completed_desc_Permutation db hid :
  select_completed_desc db hid ≡ₚ completed_dates db hid.
Proof. apply merge_sort_Permutation. Qed.

(** The descending enumeration of a history is unique: it is the result
    of the query. *)
Lemma descending_history_unique db hid ds :
  Spec.descending_history db hid ds → ds = select_completed_desc db hid.
Proof.
  intros [Hsorted Hperm].
  apply (Sorted_unique date_desc); [done | apply select_completed_desc_Sorted |].
  by rewrite Hperm, select_completed_desc_Permutation.
Qed.

Lemma select_completed_desc_history db hid :
  Spec.descending_history db hid (select_completed_desc db hid).
Proof.
  split; [apply select_completed_desc_Sorted | apply select_completed_desc_Permutation].
Qed.

(** The first row of the query is the latest completed date. *)
Lemma select_completed_desc_head db hid d rest x :
  select_completed_desc db hid = d :: rest →
  x ∈ completed_dates db hid → x ≤ d.
Proof.
  intros Heq Hx.
  rewrite <- select_completed_desc_Permutation, Heq in Hx.
  pose proof (select_completed_desc_Sorted db hid) as Hs.
  rewrite Heq in Hs. apply (Sorted_StronglySorted _) in Hs.
  apply StronglySorted_cons in Hs as [Hall _].
  apply elem_of_cons in Hx as [->|Hx]; [lia |].
  rewrite Forall_forall in Hall. by apply Hall.
Qed.

Lemma select_completed_desc_nil db hid :
  select_completed_desc db hid = [] ↔ completed_dates db hid = [].
Proof.
  split; intros H.
  - apply Permutation_nil_r. by rewrite <- H, select_completed_desc_Permutation.
  - apply Permutation_nil_r. by rewrite select_completed_desc_Permutation, H.
Qed.

(** ** The two loops of [calculate_streak] *)

(** The code recomputes [expected_date] from [current_streak] at each
    step; the walk of the specification carries it along. *)
Lemma current_loop_walk today ds c :
  current_loop today ds c = Spec.current_walk (today - c) c ds.
Proof.
  revert c. induction ds as [|d ds IH]; intros c; simpl; [done |].
  destruct (d =? today - c); [| done].
  rewrite IH. f_equal. lia.
Qed.

Lemma current_loop_head_mismatch today d rest :
  d ≠ today → current_loop today (d :: rest) 0 = 0.
Proof.
  intros Hne. simpl. rewrite Z.sub_0_r.
  destruct (Z.eqb_spec d today); [done | done].
Qed.

Lemma best_loop_mono recs prev temp b : b ≤ best_loop recs prev temp b.
Proof.
  revert prev temp b. induction recs as [|d recs IH]; intros prev temp b; simpl; [lia |].
  destruct (match prev with None => true | Some p => p - d =? 1 end).
  - etrans; [| apply IH]. lia.
  - apply IH.
Qed.

(** After the first row the loop computes the largest [temp] met. *)
Lemma best_loop_temps rest p t b :
  1 ≤ t → t ≤ b →
  let r := best_loop rest (Some p) t b in
  Forall (λ x, x ≤ r) (Spec.temps_from p t rest)
  ∧ (r = b ∨ r ∈ Spec.temps_from p t rest).
Proof.
  revert p t b. induction rest as [|d rest IH]; intros p t b Ht Hb; simpl.
  - split; [constructor | by left].
  - destruct (p - d =? 1).
    + destruct (IH d (t + 1) (Z.max b (t + 1))) as [Hall Hin]; [lia | lia |].
      pose proof (best_loop_mono rest (Some d) (t + 1) (Z.max b (t + 1))).
      split.
      * constructor; [lia | done].
      * destruct Hin as [Heq | Hin]; [| right; by apply list_elem_of_further].
        destruct (Z.max_spec b (t + 1)) as [[_ Hm] | [_ Hm]].
        -- right. rewrite Heq, Hm. apply list_elem_of_here.
        -- left. by rewrite Heq.
    + destruct (IH d 1 b) as [Hall Hin]; [lia | lia |].
      pose proof (best_loop_mono rest (Some d) 1 b).
      split.
      * constructor; [lia | done].
      * destruct Hin as [Heq | Hin]; [by left | right; by apply list_elem_of_further].
Qed.

Lemma best_loop_first d rest :
  let r := best_loop (d :: rest) None 0 0 in
  Forall (λ x, x ≤ r) (Spec.temps (d :: rest)) ∧ r ∈ Spec.temps (d :: rest).
Proof.
  change (best_loop (d :: rest) None 0 0) with (best_loop rest (Some d) 1 1).
  cbv zeta. simpl Spec.temps.
  destruct (best_loop_temps rest d 1 1) as [Hall Hin]; [lia | lia |].
  pose proof (best_loop_mono rest (Some d) 1 1).
  split.
  - constructor; [lia | done].
  - destruct Hin as [-> | Hin]; [apply list_elem_of_here | by apply list_elem_of_further].
Qed.

(** A current streak of [c] days is also a run of the second loop. *)
Lemma current_loop_le_best_loop today rest c p t b :
  1 ≤ c → p = today - (c - 1) → c ≤ t → t ≤ b →
  current_loop today rest c ≤ best_loop rest (Some p) t b.
Proof.
  revert c p t b. induction rest as [|d rest IH]; intros c p t b Hc Hp Ht Hb; simpl.
  - lia.
  - destruct (Z.eqb_spec d (today - c)) as [Hd | Hd].
    + replace (p - d =? 1) with true by (symmetry; apply Z.eqb_eq; lia).
      apply IH; lia.
    + destruct (p - d =? 1).
      * etrans; [| apply best_loop_mono]. lia.
      * etrans; [| apply best_loop_mono]. lia.
Qed.

Lemma current_loop_le_best today recs :
  current_loop today recs 0 ≤ best_loop recs None 0 0.
Proof.
  destruct recs as [|d rest]; [simpl; lia |].
  change (best_loop (d :: rest) None 0 0) with (best_loop rest (Some d) 1 1).
  simpl. rewrite Z.sub_0_r.
  destruct (Z.eqb_spec d today) as [Hd | Hd].
  - change (0 + 1) with 1. apply current_loop_le_best_loop; lia.
  - etrans; [| apply best_loop_mono]. lia.
Qed.

Lemma calculate_streak_current db today hid :
  current (calculate_streak db today hid)
  = current_loop today (select_completed_desc db hid) 0.
Proof. unfold calculate_streak. by destruct (select_completed_desc db hid). Qed.

Lemma calculate_streak_best db today hid d rest :
  select_completed_desc db hid = d :: rest →
  best (calculate_streak db today hid) = best_loop (d :: rest) None 0 0.
Proof.
  intros Heq. unfold calculate_streak. rewrite Heq.
  cbv [best]. apply Z.max_l, current_loop_le_best.
Qed.

(** ** Properties of [calculate_streak] *)

(** C1. The current streak is the walk of the specification over the
    descending enumeration of the history, started with [expected = today]
    and [current = 0]; in particular, when today is not among the
    completed dates the current streak is 0, however long the run that
    ends yesterday. *)
Theorem current_streak_is_descending_walk db today hid :
  (∀ ds, Spec.descending_history db hid ds →
         current (calculate_streak db today hid) = Spec.current_walk today 0 ds)
  ∧ (today ∉ completed_dates db hid →
     current (calculate_streak db today hid) = 0).
Proof.
  split.
  - intros ds Hds. rewrite (descending_history_unique _ _ _ Hds).
    rewrite calculate_streak_current, current_loop_walk. by rewrite Z.sub_0_r.
  - intros Hnot. rewrite calculate_streak_current.
    destruct (select_completed_desc db hid) as [|d rest] eqn:Heq; [done |].
    apply current_loop_head_mismatch. intros ->. apply Hnot.
    rewrite <- select_completed_desc_Permutation, Heq. apply list_elem_of_here.
Qed.

Lemma current_streak_is_descending_walk_witness :
  Spec.descending_history (not_today_db (jan 10)) 1 (days_before (jan 10) 9)
  ∧ (jan 10 ∉ completed_dates (not_today_db (jan 10)) 1)
  ∧ current (calculate_streak (not_today_db (jan 10)) (jan 10) 1)
    = Spec.current_walk (jan 10) 0 (days_before (jan 10) 9)
  ∧ current (calculate_streak (not_today_db (jan 10)) (jan 10) 1) = 0.
Proof.
  assert (Hds : Spec.descending_history (not_today_db (jan 10)) 1
                  (days_before (jan 10) 9)).
  { split; [| reflexivity].
    vm_compute. repeat constructor; vm_compute; discriminate. }
  assert (Hnot : jan 10 ∉ completed_dates (not_today_db (jan 10)) 1).
  { intros Hin. vm_compute in Hin.
    repeat (apply elem_of_cons in Hin as [Hin | Hin]; [discriminate |]).
    by apply elem_of_nil in Hin. }
  split; [exact Hds |]. split; [exact Hnot |].
  split.
  - exact (proj1 (current_streak_is_descending_walk _ (jan 10) 1) _ Hds).
  - exact (proj2 (current_streak_is_descending_walk _ (jan 10) 1) Hnot).
Defined.

(** C2. On a non-empty history the best streak is the maximum of the
    values [temp] takes over the descending walk (1 at the first date,
    one more when the previous date is exactly one day later, back to 1
    otherwise); with completions on 2024-01-01, 01-02, 01-03 and 01-05 and
    today 2024-01-05 the result is current 1 and best 3. *)
Theorem best_streak_is_max_temp :
  (∀ db today hid ds,
     Spec.descending_history db hid ds → ds ≠ [] →
     best (calculate_streak db today hid) ∈ Spec.temps ds
     ∧ Forall (λ temp, temp ≤ best (calculate_streak db today hid)) (Spec.temps ds))
  ∧ calculate_streak scenario_db (jan 5) 1 = {| current := 1; best := 3 |}.
Proof.
  split; [| reflexivity].
  intros db today hid ds Hds Hne.
  pose proof (descending_history_unique _ _ _ Hds) as ->.
  destruct (select_completed_desc db hid) as [|d rest] eqn:Heq; [done |].
  rewrite (calculate_streak_best db today hid d rest Heq).
  destruct (best_loop_first d rest) as [Hall Hin]. done.
Qed.

Lemma best_streak_is_max_temp_witness :
  Spec.descending_history scenario_db 1 [jan 5; jan 3; jan 2; jan 1]
  ∧ Spec.temps [jan 5; jan 3; jan 2; jan 1] = [1; 1; 2; 3]
  ∧ best (calculate_streak scenario_db (jan 5) 1)
      ∈ Spec.temps [jan 5; jan 3; jan 2; jan 1]
  ∧ Forall (λ temp, temp ≤ best (calculate_streak scenario_db (jan 5) 1))
      (Spec.temps [jan 5; jan 3; jan 2; jan 1]).
Proof.
  assert (Hds : Spec.descending_history scenario_db 1 [jan 5; jan 3; jan 2; jan 1]).
  { split.
    - vm_compute. repeat constructor; vm_compute; discriminate.
    - change [jan 5; jan 3; jan 2; jan 1] with (select_completed_desc scenario_db 1).
      apply select_completed_desc_Permutation. }
  split; [exact Hds |]. split; [reflexivity |].
  exact (proj1 best_streak_is_max_temp scenario_db (jan 5) 1 _ Hds
           ltac:(discriminate)).
Defined.

(** C3. The best streak returned is never below the current streak. *)
Theorem best_ge_current db today hid :
  current (calculate_streak db today hid) ≤ best (calculate_streak db today hid).
Proof.
  unfold calculate_streak.
  destruct (select_completed_desc db hid); simpl; lia.
Qed.

(** C10. When the history holds a completed date strictly after today,
    the current streak is 0, whatever else is completed: the walk meets
    the latest date first, and it differs from today. *)
Theorem future_record_zeroes_current db today hid d :
  d ∈ completed_dates db hid → today < d →
  current (calculate_streak db today hid) = 0.
Proof.
  intros Hin Hlt. rewrite calculate_streak_current.
  destruct (select_completed_desc db hid) as [|d0 rest] eqn:Heq; [done |].
  apply current_loop_head_mismatch.
  pose proof (select_completed_desc_head db hid d0 rest d Heq Hin). lia.
Qed.

Lemma future_record_zeroes_current_witness :
  (jan 11 ∈ completed_dates (future_db (jan 10)) 1)
  ∧ jan 10 < jan 11
  ∧ (jan 10 ∈ completed_dates (future_db (jan 10)) 1)
  ∧ current (calculate_streak (future_db (jan 10)) (jan 10) 1) = 0.
Proof.
  assert (Hin : jan 11 ∈ completed_dates (future_db (jan 10)) 1).
  { apply list_elem_of_further, list_elem_of_here. }
  assert (Hlt : jan 10 < jan 11) by reflexivity.
  split; [exact Hin |]. split; [exact Hlt |].
  split; [apply list_elem_of_here |].
  exact (future_record_zeroes_current (future_db (jan 10)) (jan 10) 1 (jan 11) Hin Hlt).
Defined.


(** ** Counting queries *)

(** A query that filters rows on a row condition [P] and on a condition
    [Q] of one column counts the values of that column, among the rows
    that satisfy [P], that satisfy [Q]. *)
Lemma length_filter_column {A B} (f : A → B) (P R : A → Prop) (Q : B → Prop)
    `{!∀ x, Decision (P x), !∀ x, Decision (R x), !∀ y, Decision (Q y)}
    (l : list A) :
  (∀ x, R x ↔ P x ∧ Q (f x)) →
  length (filter R l) = length (filter Q (f <$> filter P l)).
Proof.
  intros HR. induction l as [|x l IH]; [done |].
  rewrite !filter_cons.
  destruct (decide (R x)) as [Hr | Hr], (decide (P x)) as [Hp | Hp];
    rewrite ?fmap_cons, ?filter_cons.
  - destruct (decide (Q (f x))) as [Hq | Hq]; [simpl; by rewrite IH |].
    apply HR in Hr as [_ ?]. done.
  - apply HR in Hr as [? _]. done.
  - destruct (decide (Q (f x))) as [Hq | Hq]; [| done].
    destruct Hr. by apply HR.
  - done.
Qed.

Lemma count_completed_since_history db hid since :
  count_completed_since db hid since
  = Spec.count_completed_since (completed_dates db hid) since.
Proof.
  unfold count_completed_since, Spec.count_completed_since, completed_dates.
  f_equal. apply (length_filter_column rdate (is_completed_of hid)).
  intros r. unfold is_completed_of. tauto.
Qed.

Lemma weekday_count_history db hid w :
  weekday_count db hid w = Spec.bucket_count (completed_dates db hid) w.
Proof.
  unfold weekday_count, Spec.bucket_count, completed_dates.
  f_equal. apply (length_filter_column rdate (is_completed_of hid)).
  intros r. tauto.
Qed.

(** ** Properties of [get_completion_rate] *)

Lemma int_truediv_nonzero a b :
  b ≠ 0 → ∃ q, PyFloat.int_truediv a b = Ok q.
Proof.
  intros Hb. unfold PyFloat.int_truediv.
  destruct (Z.eqb_spec b 0); [done |].
  destruct (a =? 0); eauto.
Qed.


Lemma get_completion_rate_rate db today hid days :
  get_completion_rate db today hid days
  = Spec.rate (Spec.count_completed_since (completed_dates db hid) (today - days)) days.
Proof.
  unfold get_completion_rate, Spec.rate.
  by rewrite count_completed_since_history.
Qed.

(** Within the limits the bounded call is the function on ordinals. *)
Lemma sub_days_Ok today days :
  in_calendar today → in_calendar (today - days) →
  sub_days today days = Ok (today - days).
Proof.
  intros Ht Hs. unfold sub_days. rewrite decide_True; [done |].
  split; [| done]. unfold in_calendar, MAXORDINAL, MAX_DELTA_DAYS in *. lia.
Qed.

Lemma sub_days_Err today days :
  ¬ in_calendar (today - days) → sub_days today days = Err OverflowError.
Proof.
  intros Hs. unfold sub_days. rewrite decide_False; [done |]. by intros [_ ?].
Qed.

Lemma bind_integer_Ok n : in_int64 n → bind_integer n = Ok n.
Proof. intros Hn. unfold bind_integer. by rewrite decide_True. Qed.

Lemma bind_integer_Err n : ¬ in_int64 n → bind_integer n = Err OverflowError.
Proof. intros Hn. unfold bind_integer. by rewrite decide_False. Qed.

Lemma get_completion_rate_bounded_in_bounds db today hid days :
  in_calendar today → in_calendar (today - days) → in_int64 hid →
  get_completion_rate_bounded db today hid days
  = get_completion_rate db today hid days.
Proof.
  intros Ht Hs Hh. unfold get_completion_rate_bounded.
  by rewrite sub_days_Ok, bind_integer_Ok.
Qed.

(** C4 does not hold for every window: one that reaches before
    0001-01-01 has no start date, and the call raises [OverflowError]
    where the formula has a value. *)
Lemma completion_rate_formula_out_of_calendar :
  1 ≤ 1000000
  ∧ get_completion_rate_bounded scenario_db (jan 31) 1 1000000
    = Err OverflowError
  ∧ get_completion_rate_bounded scenario_db (jan 31) 1 1000000
    ≠ Spec.rate
        (Spec.count_completed_since (completed_dates scenario_db 1)
           (jan 31 - 1000000))
        1000000.
Proof. split; [lia |]. split; [reflexivity | discriminate]. Qed.

(** C4, amended.  For a habit id that SQLite binds and a window of
    [days >= 1] whose start [today - days] is a date of the calendar, the
    rate is [round(count_completed_since(today - days) / days * 100, 1)]:
    the call returns, the divisor is the window length, and the history
    enters only through the number of completed dates since
    [today - days]; with a window of 30 days and 9 completions in range
    the rate is 30.0.  A window whose start is no date of the calendar
    raises [OverflowError]. *)
Theorem completion_rate_formula_in_calendar :
  (∀ db today hid days,
     1 ≤ days → in_calendar today → in_calendar (today - days) → in_int64 hid →
     (∃ rate, get_completion_rate_bounded db today hid days = Ok rate)
     ∧ get_completion_rate_bounded db today hid days
       = Spec.rate
           (Spec.count_completed_since (completed_dates db hid) (today - days))
           days)
  ∧ (∀ db1 today1 hid1 db2 today2 hid2 days,
       in_calendar today1 → in_calendar (today1 - days) → in_int64 hid1 →
       in_calendar today2 → in_calendar (today2 - days) → in_int64 hid2 →
       Spec.count_completed_since (completed_dates db1 hid1) (today1 - days)
       = Spec.count_completed_since (completed_dates db2 hid2) (today2 - days) →
       get_completion_rate_bounded db1 today1 hid1 days
       = get_completion_rate_bounded db2 today2 hid2 days)
  ∧ (∀ db today hid,
       in_calendar today → in_calendar (today - 30) → in_int64 hid →
       Spec.count_completed_since (completed_dates db hid) (today - 30) = 9 →
       get_completion_rate_bounded db today hid 30 = Ok (PyFloat.of_int 30))
  ∧ (∀ db today hid days,
       ¬ in_calendar (today - days) →
       get_completion_rate_bounded db today hid days = Err OverflowError).
Proof.
  split; [| split; [| split]].
  - intros db today hid days Hdays Ht Hs Hh.
    rewrite get_completion_rate_bounded_in_bounds by done.
    split; [| apply get_completion_rate_rate].
    unfold get_completion_rate.
    destruct (int_truediv_nonzero
                (count_completed_since db hid (today - days)) days) as [q ->];
      [lia |].
    by eexists.
  - intros db1 today1 hid1 db2 today2 hid2 days Ht1 Hs1 Hh1 Ht2 Hs2 Hh2 Heq.
    rewrite !get_completion_rate_bounded_in_bounds by done.
    by rewrite !get_completion_rate_rate, Heq.
  - intros db today hid Ht Hs Hh Hcount.
    rewrite get_completion_rate_bounded_in_bounds by done.
    rewrite get_completion_rate_rate, Hcount. reflexivity.
  - intros db today hid days Hs. unfold get_completion_rate_bounded.
    by rewrite sub_days_Err.
Qed.

Lemma completion_rate_formula_in_calendar_witness :
  1 ≤ 30
  ∧ in_calendar (jan 10) ∧ in_calendar (jan 10 - 30) ∧ in_int64 1
  ∧ Spec.count_completed_since
      (completed_dates (not_today_db (jan 10)) 1) (jan 10 - 30) = 9
  ∧ (∃ rate,
       get_completion_rate_bounded (not_today_db (jan 10)) (jan 10) 1 30 = Ok rate)
  ∧ get_completion_rate_bounded (not_today_db (jan 10)) (jan 10) 1 30
    = Spec.rate 9 30
  ∧ get_completion_rate_bounded (not_today_db (jan 10)) (jan 10) 1 30
    = Ok (PyFloat.of_int 30)
  ∧ ¬ in_calendar (jan 10 - 1000000)
  ∧ get_completion_rate_bounded (not_today_db (jan 10)) (jan 10) 1 1000000
    = Err OverflowError.
Proof.
  assert (Hdays : 1 ≤ 30) by lia.
  assert (Ht : in_calendar (jan 10)) by (vm_compute; split; discriminate).
  assert (Hs : in_calendar (jan 10 - 30)) by (vm_compute; split; discriminate).
  assert (Hh : in_int64 1) by (vm_compute; split; [discriminate | reflexivity]).
  assert (Hcount : Spec.count_completed_since
            (completed_dates (not_today_db (jan 10)) 1) (jan 10 - 30) = 9)
    by reflexivity.
  assert (Hout : ¬ in_calendar (jan 10 - 1000000)).
  { intros [Hlo _]. vm_compute in Hlo. by apply Hlo. }
  split; [exact Hdays |]. split; [exact Ht |]. split; [exact Hs |].
  split; [exact Hh |]. split; [exact Hcount |].
  split; [| split; [| split; [| split; [exact Hout |]]]].
  - exact (proj1 (proj1 completion_rate_formula_in_calendar
                    (not_today_db (jan 10)) (jan 10) 1 30 Hdays Ht Hs Hh)).
  - exact (proj2 (proj1 completion_rate_formula_in_calendar
                    (not_today_db (jan 10)) (jan 10) 1 30 Hdays Ht Hs Hh)).
  - exact (proj1 (proj2 (proj2 completion_rate_formula_in_calendar))
             (not_today_db (jan 10)) (jan 10) 1 Ht Hs Hh Hcount).
  - exact (proj2 (proj2 (proj2 completion_rate_formula_in_calendar))
             (not_today_db (jan 10)) (jan 10) 1 1000000 Hout).
Defined.

(** C5. The rate is not confined to [0, 100]: the condition
    [date >= today - days] admits [days + 1] dates while the divisor is
    [days].  A habit completed on each of the 31 dates from [today - 30]
    to [today] has, on the default window of 30 days, the rate 103.3
    (the float [0x1.9d33333333333p+6]); a habit completed yesterday and
    today has the rate 200.0 on a window of one day.  Both stores respect
    [UNIQUE(habit_id, date)]. *)
Theorem completion_rate_above_100 :
  (records_unique (full_month_db (jan 31))
   ∧ count_completed_since (full_month_db (jan 31)) 1 (jan 31 - 30) = 31
   ∧ get_completion_rate_default (full_month_db (jan 31)) (jan 31) 1
     = Ok (S754_finite false 0x19d33333333333 (-46))
   ∧ PyFloat.leb (S754_finite false 0x19d33333333333 (-46)) (PyFloat.of_int 100)
     = false)
  ∧ (records_unique (two_day_db (jan 10))
     ∧ count_completed_since (two_day_db (jan 10)) 1 (jan 10 - 1) = 2
     ∧ get_completion_rate (two_day_db (jan 10)) (jan 10) 1 1
       = Ok (PyFloat.of_int 200)
     ∧ PyFloat.leb (PyFloat.of_int 200) (PyFloat.of_int 100) = false).
Proof.
  split; (split; [| split; [reflexivity | split; reflexivity]]).
  - unfold records_unique. apply (bool_decide_unpack _). by vm_compute.
  - unfold records_unique. apply (bool_decide_unpack _). by vm_compute.
Qed.

(** C6. A window of zero days is not guarded: the division raises
    [ZeroDivisionError], whatever the store holds. *)
Theorem completion_rate_zero_window_raises db today hid :
  get_completion_rate db today hid 0 = Err ZeroDivisionError.
Proof. reflexivity. Qed.

(** ** The query of [get_best_weekday] *)

Lemma strftime_w_range d : 0 ≤ PyDate.strftime_w d < 7.
Proof. unfold PyDate.strftime_w. apply Z.mod_pos_bound. lia. Qed.

Lemma elem_of_weekday_indices (w : Z) :
  w ∈ [0; 1; 2; 3; 4; 5; 6] ↔ 0 ≤ w < 7.
Proof.
  rewrite !elem_of_cons, elem_of_nil. lia.
Qed.

Lemma group_by_weekday_elem db hid w c :
  (w, c) ∈ group_by_weekday db hid
  ↔ 0 ≤ w < 7 ∧ c = weekday_count db hid w ∧ 0 < c.
Proof.
  unfold group_by_weekday. rewrite list_elem_of_filter, list_elem_of_fmap. simpl.
  split.
  - intros [Hc (w' & Heq & Hw')]. injection Heq as -> ->.
    by rewrite elem_of_weekday_indices in Hw'.
  - intros (Hw & -> & Hc). split; [done |].
    exists w. by rewrite elem_of_weekday_indices.
Qed.

(** The row the query returns has the largest count of the 7 weekdays. *)
Lemma select_best_weekday_max db hid w c :
  select_best_weekday db hid = Some (w, c) →
  0 ≤ w < 7 ∧ c = weekday_count db hid w
  ∧ ∀ w', 0 ≤ w' < 7 → weekday_count db hid w' ≤ c.
Proof.
  unfold select_best_weekday. intros Hhead.
  pose proof (StronglySorted_merge_sort count_desc (group_by_weekday db hid)) as Hs.
  pose proof (merge_sort_Permutation count_desc (group_by_weekday db hid)) as Hp.
  destruct (merge_sort count_desc (group_by_weekday db hid)) as [|g gs]; [done |].
  injection Hhead as ->.
  assert (Hg : (w, c) ∈ group_by_weekday db hid).
  { rewrite <- Hp. apply list_elem_of_here. }
  apply group_by_weekday_elem in Hg as (Hw & Hc & Hpos).
  split; [done |]. split; [done |].
  intros w' Hw'.
  destruct (decide (0 < weekday_count db hid w')) as [Hpos' | Hzero]; [| lia].
  assert (Hg' : (w', weekday_count db hid w') ∈ (w, c) :: gs).
  { rewrite Hp. by apply group_by_weekday_elem. }
  apply StronglySorted_cons in Hs as [Hall _].
  apply elem_of_cons in Hg' as [Heq | Hin].
  - injection Heq as _ ->. lia.
  - rewrite Forall_forall in Hall. specialize (Hall _ Hin).
    unfold count_desc in Hall. simpl in Hall. lia.
Qed.

Lemma bucket_count_pos history d :
  d ∈ history → 0 < Spec.bucket_count history (PyDate.strftime_w d).
Proof.
  intros Hin. unfold Spec.bucket_count.
  assert (Hf : d ∈ filter (λ x, PyDate.strftime_w x = PyDate.strftime_w d) history)
    by (by apply list_elem_of_filter).
  destruct (filter _ history); [by apply elem_of_nil in Hf | simpl; lia].
Qed.

Lemma select_best_weekday_Some db hid :
  completed_dates db hid ≠ [] → ∃ w c, select_best_weekday db hid = Some (w, c).
Proof.
  intros Hne. unfold select_best_weekday.
  destruct (completed_dates db hid) as [|d ds] eqn:Hhist; [done |].
  assert (Hg : (PyDate.strftime_w d, weekday_count db hid (PyDate.strftime_w d))
               ∈ group_by_weekday db hid).
  { apply group_by_weekday_elem. split; [apply strftime_w_range |]. split; [done |].
    rewrite weekday_count_history. apply bucket_count_pos.
    rewrite Hhist. apply list_elem_of_here. }
  rewrite <- (merge_sort_Permutation count_desc) in Hg.
  destruct (merge_sort count_desc (group_by_weekday db hid)) as [|[w c] gs].
  - by apply elem_of_nil in Hg.
  - by exists w, c.
Qed.


Lemma py_index_weekdays w :
  0 ≤ w < 7 →
  ∃ label, weekdays !! Z.to_nat w = Some label ∧ py_index weekdays w = Ok label.
Proof.
  intros Hw.
  assert (Hcases : w = 0 ∨ w = 1 ∨ w = 2 ∨ w = 3 ∨ w = 4 ∨ w = 5 ∨ w = 6) by lia.
  destruct Hcases as [-> | [-> | [-> | [-> | [-> | [-> | ->]]]]]];
    eexists; split; reflexivity.
Qed.

(** ** Properties of [get_best_weekday] *)

(** C9. For a habit with a completed record, the label returned is that
    of a weekday whose bucket, the number of completed dates that fall on
    it, is at least the bucket of each of the 7 weekdays. *)
Theorem best_weekday_has_largest_bucket db hid :
  completed_dates db hid ≠ [] →
  ∃ w label,
    0 ≤ w < 7
    ∧ weekdays !! Z.to_nat w = Some label
    ∧ get_best_weekday db hid = Ok (Some label)
    ∧ ∀ w', 0 ≤ w' < 7 →
        Spec.bucket_count (completed_dates db hid) w'
        ≤ Spec.bucket_count (completed_dates db hid) w.
Proof.
  intros Hne.
  destruct (select_best_weekday_Some db hid Hne) as (w & c & Hsel).
  destruct (select_best_weekday_max db hid w c Hsel) as (Hw & Hc & Hmax).
  destruct (py_index_weekdays w Hw) as (label & Hlabel & Hidx).
  exists w, label. split; [done |]. split; [done |]. split.
  - unfold get_best_weekday. rewrite Hsel, Hidx. reflexivity.
  - intros w' Hw'. rewrite <- !weekday_count_history, <- Hc. by apply Hmax.
Qed.

Lemma best_weekday_has_largest_bucket_witness :
  completed_dates scenario_db 1 ≠ []
  ∧ ∃ w label,
      0 ≤ w < 7
      ∧ weekdays !! Z.to_nat w = Some label
      ∧ get_best_weekday scenario_db 1 = Ok (Some label)
      ∧ ∀ w', 0 ≤ w' < 7 →
          Spec.bucket_count (completed_dates scenario_db 1) w'
          ≤ Spec.bucket_count (completed_dates scenario_db 1) w.
Proof.
  assert (Hne : completed_dates scenario_db 1 ≠ []) by discriminate.
  split; [exact Hne |].
  exact (best_weekday_has_largest_bucket scenario_db 1 Hne).
Defined.

Example best_weekday_scenario :
  get_best_weekday scenario_db 1 = Ok (Some "Sexta"%string)
  ∧ get_best_weekday (two_day_db (jan 10)) 1 = Ok (Some "Quarta"%string).
Proof. split; reflexivity. Qed.

(** ** Empty histories *)



(** ** Properties of [get_overview_stats] *)

Lemma count_active_habits_length db :
  count_active_habits db = Z.of_nat (length (active_habit_ids db)).
Proof. unfold count_active_habits, active_habit_ids. by rewrite length_fmap. Qed.

(** C7. The overview always returns.  Its rate of today is
    [completed_today / total_habits * 100] rounded to one decimal when
    there are active habits, and the integer 0 when there are none; its
    average streak is the integer 0 when there are none.  No division by
    zero is reached. *)
Theorem overview_division_guards db today :
  ∃ ov,
    get_overview_stats db today = Ok ov
    ∧ total_habits ov = Z.of_nat (length (active_habit_ids db))
    ∧ completed_today ov = count_completed_today db today
    ∧ (0 < total_habits ov →
       ∃ q, PyFloat.int_truediv (completed_today ov) (total_habits ov) = Ok q
            ∧ completion_rate_today ov
              = Float (PyFloat.round (PyFloat.mul q (PyFloat.of_int 100)) 1))
    ∧ (total_habits ov = 0 → completion_rate_today ov = Int 0)
    ∧ (active_habit_ids db = [] → average_streak ov = Int 0).
Proof.
  unfold get_overview_stats. rewrite count_active_habits_length.
  destruct (active_habit_ids db) as [|hid0 hids] eqn:Hids.
  - eexists. split; [reflexivity |]. simpl. repeat split; try done; lia.
  - set (n := Z.of_nat (length (hid0 :: hids))).
    assert (Hn : 0 < n) by (unfold n; simpl; lia).
    destruct (int_truediv_nonzero
                (sum_current_streaks db today (hid0 :: hids)) n) as [qa Hqa]; [lia |].
    destruct (int_truediv_nonzero (count_completed_today db today) n)
      as [qr Hqr]; [lia |].
    rewrite Hqa. simpl.
    replace (0 <? n) with true by (symmetry; apply Z.ltb_lt; lia).
    rewrite Hqr. simpl.
    eexists. split; [reflexivity |]. simpl.
    repeat split; try done; try lia.
    intros _. by exists qr.
Qed.

Lemma overview_division_guards_witness :
  (∃ ov, get_overview_stats scenario_db (jan 5) = Ok ov
         ∧ 0 < total_habits ov
         ∧ completion_rate_today ov = Float (PyFloat.of_int 50))
  ∧ (∃ ov, get_overview_stats empty_db (jan 5) = Ok ov
           ∧ total_habits ov = 0
           ∧ completion_rate_today ov = Int 0
           ∧ average_streak ov = Int 0).
Proof.
  split.
  - destruct (overview_division_guards scenario_db (jan 5))
      as (ov & Hov & Htotal & Hdone & Hrate & _ & _).
    assert (Hpos : 0 < total_habits ov) by (rewrite Htotal; reflexivity).
    destruct (Hrate Hpos) as (q & Hq & Hrate_eq).
    exists ov. split; [exact Hov |]. split; [exact Hpos |].
    rewrite Hdone, Htotal in Hq. vm_compute in Hq. injection Hq as <-.
    rewrite Hrate_eq. reflexivity.
  - destruct (overview_division_guards empty_db (jan 5))
      as (ov & Hov & Htotal & _ & _ & Hzero & Havg).
    exists ov. split; [exact Hov |]. split; [exact Htotal |].
    split; [exact (Hzero Htotal) | exact (Havg eq_refl)].
Defined.

(** * Further properties of the code *)

(** ** More on [calculate_streak] *)

(** Rows of one habit have distinct dates under [UNIQUE(habit_id, date)]. *)
Lemma completed_dates_NoDup db hid :
  records_unique db → NoDup (completed_dates db hid).
Proof.
  unfold records_unique, completed_dates.
  induction (records db) as [|r rs IH]; intros Hu; [constructor |].
  simpl in Hu. apply NoDup_cons in Hu as [Hr Hrs].
  rewrite filter_cons. destruct (decide (is_completed_of hid r)) as [[Hh _] | _];
    [| by apply IH].
  rewrite fmap_cons. apply NoDup_cons. split; [| by apply IH].
  intros Hin. apply list_elem_of_fmap in Hin as (r' & Hd & Hin').
  apply list_elem_of_filter in Hin' as [[Hh' _] Hin'].
  apply Hr. apply list_elem_of_fmap. exists r'. split; [| done].
  by rewrite Hd, Hh, Hh'.
Qed.

Lemma select_completed_desc_NoDup db hid :
  records_unique db → NoDup (select_completed_desc db hid).
Proof.
  intros Hu. rewrite select_completed_desc_Permutation.
  by apply completed_dates_NoDup.
Qed.

Lemma select_completed_desc_elem db hid d :
  d ∈ select_completed_desc db hid ↔ d ∈ completed_dates db hid.
Proof. by rewrite select_completed_desc_Permutation. Qed.

Lemma select_completed_desc_StronglySorted db hid :
  StronglySorted date_desc (select_completed_desc db hid).
Proof. apply (Sorted_StronglySorted _), select_completed_desc_Sorted. Qed.

Lemma current_loop_ge today ds c : c ≤ current_loop today ds c.
Proof.
  revert c. induction ds as [|d ds IH]; intros c; simpl; [lia |].
  destruct (d =? today - c); [| lia]. specialize (IH (c + 1)). lia.
Qed.

(** Each step counted by the first loop is a completed date. *)
Lemma current_loop_sound today ds c k :
  c ≤ k < current_loop today ds c → today - k ∈ ds.
Proof.
  revert c. induction ds as [|d ds IH]; intros c; simpl; [lia |].
  destruct (Z.eqb_spec d (today - c)) as [-> | _]; [| lia].
  intros Hk. destruct (decide (k = c)) as [-> | Hne]; [apply list_elem_of_here |].
  apply list_elem_of_further, (IH (c + 1)). lia.
Qed.

(** The current streak is made of completed days: each of the [current]
    days that end today is in the history. *)
Theorem current_streak_days_completed db today hid k :
  0 ≤ k < current (calculate_streak db today hid) →
  today - k ∈ completed_dates db hid.
Proof.
  rewrite calculate_streak_current. intros Hk.
  apply select_completed_desc_elem. by apply (current_loop_sound today _ 0).
Qed.

Lemma current_streak_days_completed_witness :
  0 ≤ 2 < current (calculate_streak (full_month_db (jan 31)) (jan 31) 1)
  ∧ jan 31 - 2 ∈ completed_dates (full_month_db (jan 31)) 1.
Proof.
  assert (Hk : 0 ≤ 2 < current (calculate_streak (full_month_db (jan 31)) (jan 31) 1))
    by (vm_compute; split; [discriminate | reflexivity]).
  split; [exact Hk |].
  exact (current_streak_days_completed (full_month_db (jan 31)) (jan 31) 1 2 Hk).
Defined.


(** On a strictly descending list bounded by [e], the walk counts the
    run of consecutive days that ends at [e]. *)
Lemma current_walk_complete ds e c n :
  StronglySorted date_desc ds → NoDup ds → Forall (λ d, d ≤ e) ds →
  0 ≤ n → (∀ k, 0 ≤ k < n → e - k ∈ ds) → e - n ∉ ds →
  Spec.current_walk e c ds = c + n.
Proof.
  revert e c n. induction ds as [|d ds IH]; intros e c n Hs Hnd Hle Hn Hrun Hend.
  - simpl. destruct (decide (n = 0)) as [-> | Hne]; [lia |].
    specialize (Hrun 0 ltac:(lia)). by apply elem_of_nil in Hrun.
  - apply StronglySorted_cons in Hs as [Hall Hs].
    apply NoDup_cons in Hnd as [Hd Hnd].
    apply Forall_cons in Hle as [Hde Hle].
    rewrite Forall_forall in Hall. unfold date_desc in Hall.
    simpl. destruct (Z.eqb_spec d e) as [-> | Hne].
    + destruct (decide (n = 0)) as [-> | Hn0].
      { exfalso. apply Hend. rewrite Z.sub_0_r. apply list_elem_of_here. }
      rewrite (IH (e - 1) (c + 1) (n - 1)); try done; try lia.
      * apply Forall_forall. intros x Hx. specialize (Hall x Hx).
        assert (x ≠ e) by (intros ->; done). lia.
      * intros k Hk. specialize (Hrun (k + 1) ltac:(lia)).
        replace (e - 1 - k) with (e - (k + 1)) by lia.
        apply elem_of_cons in Hrun as [Heq | Hin]; [lia | done].
      * replace (e - 1 - (n - 1)) with (e - n) by lia.
        intros Hin. apply Hend. by apply list_elem_of_further.
    + destruct (decide (n = 0)) as [-> | Hn0]; [lia |].
      specialize (Hrun 0 ltac:(lia)). rewrite Z.sub_0_r in Hrun.
      apply elem_of_cons in Hrun as [Heq | Hin]; [congruence |].
      specialize (Hall e Hin). lia.
Qed.

(** When no completed date lies after today, the current streak is the
    length of the run of consecutive completed days that ends today: if
    the [n] days up to today are completed and the day before them is
    not, the current streak is [n]. *)
Theorem current_streak_is_run_length db today hid n :
  records_unique db →
  (∀ d, d ∈ completed_dates db hid → d ≤ today) →
  0 ≤ n →
  (∀ k, 0 ≤ k < n → today - k ∈ completed_dates db hid) →
  today - n ∉ completed_dates db hid →
  current (calculate_streak db today hid) = n.
Proof.
  intros Hu Hle Hn Hrun Hend.
  rewrite calculate_streak_current, current_loop_walk, Z.sub_0_r.
  rewrite (current_walk_complete _ today 0 n); try done.
  - apply select_completed_desc_StronglySorted.
  - by apply select_completed_desc_NoDup.
  - apply Forall_forall. intros d Hd. by apply Hle, select_completed_desc_elem.
  - intros k Hk. by apply select_completed_desc_elem, Hrun.
  - by rewrite select_completed_desc_elem.
Qed.

(** Membership in a list given by its elements. *)
Ltac in_concrete_list H :=
  vm_compute in H;
  repeat (apply elem_of_cons in H as [H | H]; [try discriminate H |]);
  try (by apply elem_of_nil in H).

Lemma current_streak_is_run_length_witness :
  records_unique (two_day_db (jan 10))
  ∧ (∀ d, d ∈ completed_dates (two_day_db (jan 10)) 1 → d ≤ jan 10)
  ∧ (∀ k, 0 ≤ k < 2 → jan 10 - k ∈ completed_dates (two_day_db (jan 10)) 1)
  ∧ (jan 10 - 2 ∉ completed_dates (two_day_db (jan 10)) 1)
  ∧ current (calculate_streak (two_day_db (jan 10)) (jan 10) 1) = 2.
Proof.
  assert (Hu : records_unique (two_day_db (jan 10))).
  { unfold records_unique. apply (bool_decide_unpack _). by vm_compute. }
  assert (Hle : ∀ d, d ∈ completed_dates (two_day_db (jan 10)) 1 → d ≤ jan 10).
  { intros d Hd. in_concrete_list Hd; subst d; vm_compute; discriminate. }
  assert (Hrun : ∀ k, 0 ≤ k < 2 →
                      jan 10 - k ∈ completed_dates (two_day_db (jan 10)) 1).
  { intros k Hk. assert (Hc : k = 0 ∨ k = 1) by lia.
    destruct Hc as [-> | ->].
    - apply list_elem_of_further, list_elem_of_here.
    - apply list_elem_of_here. }
  assert (Hend : jan 10 - 2 ∉ completed_dates (two_day_db (jan 10)) 1).
  { intros Hin. in_concrete_list Hin. }
  split; [exact Hu |]. split; [exact Hle |]. split; [exact Hrun |].
  split; [exact Hend |].
  exact (current_streak_is_run_length (two_day_db (jan 10)) (jan 10) 1 2
           Hu Hle ltac:(lia) Hrun Hend).
Defined.

(** Each value of [temp] is the length of a run of consecutive days of
    the history [H] walked. *)
Lemma temps_from_runs (H : date → Prop) rest p t x :
  (∀ k, 0 ≤ k < t → H (p + k)) →
  (∀ d, d ∈ rest → H d) →
  x ∈ Spec.temps_from p t rest →
  ∃ q, ∀ k, 0 ≤ k < x → H (q + k).
Proof.
  revert p t. induction rest as [|d rest IH]; intros p t Hrun Hrest Hx; simpl in Hx.
  { by apply elem_of_nil in Hx. }
  assert (Hd : H d) by (apply Hrest, list_elem_of_here).
  assert (Hrest' : ∀ d', d' ∈ rest → H d')
    by (intros d' Hd'; by apply Hrest, list_elem_of_further).
  destruct (Z.eqb_spec (p - d) 1) as [Hpd | Hpd].
  - assert (Hrun' : ∀ k, 0 ≤ k < t + 1 → H (d + k)).
    { intros k Hk. destruct (decide (k = 0)) as [-> | Hk0].
      - by rewrite Z.add_0_r.
      - replace (d + k) with (p + (k - 1)) by lia. apply Hrun. lia. }
    apply elem_of_cons in Hx as [-> | Hx]; [by exists d | by apply (IH d (t + 1))].
  - assert (Hrun' : ∀ k, 0 ≤ k < 1 → H (d + k)).
    { intros k Hk. replace k with 0 by lia. by rewrite Z.add_0_r. }
    apply elem_of_cons in Hx as [-> | Hx]; [by exists d | by apply (IH d 1)].
Qed.

(** A run that reaches down from the date just walked: on a strictly
    descending list its days follow one another, and [temp] grows to its
    length. *)
Lemma temps_from_in_run rest p t lo hi :
  StronglySorted date_desc (p :: rest) → NoDup (p :: rest) →
  lo < p → p ≤ hi → hi - p + 1 ≤ t →
  (∀ x, lo ≤ x ≤ p → x ∈ p :: rest) →
  ∃ x, x ∈ Spec.temps_from p t rest ∧ hi - lo + 1 ≤ x.
Proof.
  revert p t. induction rest as [|d rest IH]; intros p t Hs Hnd Hlo Hhi Ht Hrun.
  { specialize (Hrun (p - 1) ltac:(lia)).
    apply elem_of_cons in Hrun as [? | Hin]; [lia | by apply elem_of_nil in Hin]. }
  pose proof Hs as Hs0. pose proof Hnd as Hnd0.
  apply StronglySorted_cons in Hs as [Hall Hs].
  apply NoDup_cons in Hnd as [Hp Hnd].
  rewrite Forall_forall in Hall. unfold date_desc in Hall.
  assert (Hdp : d < p).
  { specialize (Hall d ltac:(apply list_elem_of_here)).
    assert (d ≠ p) by (intros ->; apply Hp, list_elem_of_here). lia. }
  assert (Hd : d = p - 1).
  { specialize (Hrun (p - 1) ltac:(lia)).
    apply elem_of_cons in Hrun as [? | Hin]; [lia |].
    apply StronglySorted_cons in Hs as [Hall' _].
    rewrite Forall_forall in Hall'. unfold date_desc in Hall'.
    apply elem_of_cons in Hin as [? | Hin]; [lia |].
    specialize (Hall' _ Hin). lia. }
  simpl. replace (p - d =? 1) with true by (symmetry; apply Z.eqb_eq; lia).
  destruct (decide (lo = d)) as [-> | Hne].
  - exists (t + 1). split; [apply list_elem_of_here | lia].
  - destruct (IH d (t + 1)) as (x & Hx & Hle); try done; try lia.
    + intros y Hy. specialize (Hrun y ltac:(lia)).
      apply elem_of_cons in Hrun as [? | ?]; [lia | done].
    + exists x. split; [by apply list_elem_of_further | done].
Qed.

(** A run that lies below the date just walked. *)
Lemma temps_from_below_run rest p t lo hi :
  StronglySorted date_desc (p :: rest) → NoDup (p :: rest) →
  0 ≤ t → lo ≤ hi → hi < p →
  (∀ x, lo ≤ x ≤ hi → x ∈ rest) →
  ∃ x, x ∈ Spec.temps_from p t rest ∧ hi - lo + 1 ≤ x.
Proof.
  revert p t. induction rest as [|d rest IH]; intros p t Hs Hnd Ht Hlo Hhi Hrun.
  { specialize (Hrun hi ltac:(lia)). by apply elem_of_nil in Hrun. }
  apply StronglySorted_cons in Hs as [_ Hs].
  apply NoDup_cons in Hnd as [_ Hnd].
  assert (Hhd : hi ≤ d).
  { specialize (Hrun hi ltac:(lia)).
    apply StronglySorted_cons in Hs as [Hall' _].
    rewrite Forall_forall in Hall'. unfold date_desc in Hall'.
    apply elem_of_cons in Hrun as [? | Hin]; [lia |].
    specialize (Hall' _ Hin). lia. }
  simpl. set (t' := if p - d =? 1 then t + 1 else 1).
  assert (Ht' : 1 ≤ t') by (unfold t'; destruct (p - d =? 1); lia).
  destruct (decide (hi = d)) as [-> | Hne].
  - destruct (decide (lo = d)) as [-> | Hlo'].
    + exists t'. split; [apply list_elem_of_here | lia].
    + destruct (temps_from_in_run rest d t' lo d) as (x & Hx & Hle);
        try done; try lia.
      exists x. split; [by apply list_elem_of_further | done].
  - destruct (IH d t') as (x & Hx & Hle); try done; try lia.
    + intros y Hy. specialize (Hrun y Hy).
      apply elem_of_cons in Hrun as [? | ?]; [lia | done].
    + exists x. split; [by apply list_elem_of_further | done].
Qed.

Lemma temps_cover_run ds lo hi :
  StronglySorted date_desc ds → NoDup ds → lo ≤ hi →
  (∀ x, lo ≤ x ≤ hi → x ∈ ds) →
  ∃ x, x ∈ Spec.temps ds ∧ hi - lo + 1 ≤ x.
Proof.
  intros Hs Hnd Hlo Hrun.
  destruct ds as [|d rest].
  { specialize (Hrun lo ltac:(lia)). by apply elem_of_nil in Hrun. }
  assert (Hhd : hi ≤ d).
  { specialize (Hrun hi ltac:(lia)).
    apply StronglySorted_cons in Hs as [Hall _].
    rewrite Forall_forall in Hall. unfold date_desc in Hall.
    apply elem_of_cons in Hrun as [? | Hin]; [lia |].
    specialize (Hall _ Hin). lia. }
  simpl. destruct (decide (hi = d)) as [-> | Hne].
  - destruct (decide (lo = d)) as [-> | Hlo'].
    + exists 1. split; [apply list_elem_of_here | lia].
    + destruct (temps_from_in_run rest d 1 lo d) as (x & Hx & Hle);
        try done; try lia.
      exists x. split; [by apply list_elem_of_further | done].
  - destruct (temps_from_below_run rest d 1 lo hi) as (x & Hx & Hle);
      try done; try lia.
    + intros y Hy. specialize (Hrun y Hy).
      apply elem_of_cons in Hrun as [? | ?]; [lia | done].
    + exists x. split; [by apply list_elem_of_further | done].
Qed.

Lemma best_nonneg db today hid : 0 ≤ best (calculate_streak db today hid).
Proof.
  unfold calculate_streak.
  destruct (select_completed_desc db hid) as [|d0 rest]; simpl; [lia |].
  pose proof (best_loop_mono (d0 :: rest) None 0 0) as Hm. simpl in Hm. lia.
Qed.

(** The best streak is at least the length of every run of consecutive
    completed days, wherever the run lies in the history. *)
Theorem best_streak_covers_every_run db today hid d n :
  records_unique db →
  (∀ k, 0 ≤ k < n → d + k ∈ completed_dates db hid) →
  n ≤ best (calculate_streak db today hid).
Proof.
  intros Hu Hrun.
  destruct (decide (n ≤ 0)) as [Hn | Hn].
  { pose proof (best_nonneg db today hid). lia. }
  destruct (temps_cover_run (select_completed_desc db hid) d (d + n - 1))
    as (x & Hx & Hle).
  - apply select_completed_desc_StronglySorted.
  - by apply select_completed_desc_NoDup.
  - lia.
  - intros y Hy. apply select_completed_desc_elem.
    replace y with (d + (y - d)) by lia. apply Hrun. lia.
  - destruct (select_completed_desc db hid) as [|d0 rest] eqn:Heq.
    { by apply elem_of_nil in Hx. }
    rewrite (calculate_streak_best db today hid d0 rest Heq).
    destruct (best_loop_first d0 rest) as [Hall _].
    rewrite Forall_forall in Hall. specialize (Hall x Hx). cbv beta in Hall. lia.
Qed.

Lemma best_streak_covers_every_run_witness :
  records_unique scenario_db
  ∧ (∀ k, 0 ≤ k < 3 → jan 1 + k ∈ completed_dates scenario_db 1)
  ∧ 3 ≤ best (calculate_streak scenario_db (jan 20) 1).
Proof.
  assert (Hu : records_unique scenario_db).
  { unfold records_unique. apply (bool_decide_unpack _). by vm_compute. }
  assert (Hrun : ∀ k, 0 ≤ k < 3 → jan 1 + k ∈ completed_dates scenario_db 1).
  { intros k Hk. assert (Hc : k = 0 ∨ k = 1 ∨ k = 2) by lia.
    destruct Hc as [-> | [-> | ->]].
    - apply list_elem_of_further, list_elem_of_here.
    - do 3 apply list_elem_of_further. apply list_elem_of_here.
    - apply list_elem_of_here. }
  split; [exact Hu |]. split; [exact Hrun |].
  exact (best_streak_covers_every_run scenario_db (jan 20) 1 (jan 1) 3 Hu Hrun).
Defined.

(** The best streak is the length of a run that exists: on a non-empty
    history it is at least 1, and some [best] consecutive days are all
    completed. *)
Theorem best_streak_is_attained db today hid :
  completed_dates db hid ≠ [] →
  1 ≤ best (calculate_streak db today hid)
  ∧ ∃ d, ∀ k, 0 ≤ k < best (calculate_streak db today hid) →
              d + k ∈ completed_dates db hid.
Proof.
  intros Hne.
  destruct (select_completed_desc db hid) as [|d0 rest] eqn:Heq.
  { by apply select_completed_desc_nil in Heq. }
  rewrite (calculate_streak_best db today hid d0 rest Heq).
  destruct (best_loop_first d0 rest) as [Hall Hin].
  change (Spec.temps (d0 :: rest)) with (1 :: Spec.temps_from d0 1 rest) in Hall, Hin.
  split.
  { apply Forall_cons in Hall as [H1 _]. exact H1. }
  assert (Hmem : ∀ x, x ∈ d0 :: rest → x ∈ completed_dates db hid).
  { intros x Hx. apply select_completed_desc_elem. by rewrite Heq. }
  apply elem_of_cons in Hin as [Heq1 | Hin].
  - exists d0. intros k Hk. replace k with 0 by lia.
    rewrite Z.add_0_r. apply Hmem, list_elem_of_here.
  - apply (temps_from_runs (λ x, x ∈ completed_dates db hid) rest d0 1); [| | done].
    + intros k Hk. replace k with 0 by lia.
      rewrite Z.add_0_r. apply Hmem, list_elem_of_here.
    + intros x Hx. by apply Hmem, list_elem_of_further.
Qed.

Lemma best_streak_is_attained_witness :
  completed_dates scenario_db 1 ≠ []
  ∧ 1 ≤ best (calculate_streak scenario_db (jan 20) 1)
  ∧ ∃ d, ∀ k, 0 ≤ k < best (calculate_streak scenario_db (jan 20) 1) →
              d + k ∈ completed_dates scenario_db 1.
Proof.
  assert (Hne : completed_dates scenario_db 1 ≠ []) by discriminate.
  split; [exact Hne |].
  exact (best_streak_is_attained scenario_db (jan 20) 1 Hne).
Defined.

Lemma best_loop_le_length recs prev t b :
  0 ≤ t → best_loop recs prev t b ≤ Z.max b (t + Z.of_nat (length recs)).
Proof.
  revert prev t b. induction recs as [|d recs IH]; intros prev t b Ht; simpl length.
  { simpl. lia. }
  simpl best_loop.
  destruct (match prev with None => true | Some p => p - d =? 1 end).
  - specialize (IH (Some d) (t + 1) (Z.max b (t + 1)) ltac:(lia)). lia.
  - specialize (IH (Some d) 1 b ltac:(lia)). lia.
Qed.

(** Both streaks are counts of completed days: the current streak is
    not negative, and the best streak is at most the number of completed
    dates of the habit. *)
Theorem streak_within_history db today hid :
  0 ≤ current (calculate_streak db today hid)
  ∧ best (calculate_streak db today hid)
    ≤ Z.of_nat (length (completed_dates db hid)).
Proof.
  rewrite calculate_streak_current. split.
  { apply current_loop_ge. }
  rewrite <- (Permutation_length (select_completed_desc_Permutation db hid)).
  destruct (select_completed_desc db hid) as [|d0 rest] eqn:Heq.
  { unfold calculate_streak. rewrite Heq. simpl. lia. }
  rewrite (calculate_streak_best db today hid d0 rest Heq).
  pose proof (best_loop_le_length (d0 :: rest) None 0 0 ltac:(lia)). lia.
Qed.

(** The streak depends on the history as a collection of dates only:
    two stores (or two habits) with the same completed dates, in whatever
    table order, have the same streak. *)
Theorem streak_ignores_table_order db1 hid1 db2 hid2 today :
  completed_dates db1 hid1 ≡ₚ completed_dates db2 hid2 →
  calculate_streak db1 today hid1 = calculate_streak db2 today hid2.
Proof.
  intros Hperm.
  assert (Heq : select_completed_desc db1 hid1 = select_completed_desc db2 hid2).
  { apply (Sorted_unique date_desc); try apply select_completed_desc_Sorted.
    by rewrite !select_completed_desc_Permutation. }
  unfold calculate_streak. by rewrite Heq.
Qed.

Lemma streak_ignores_table_order_witness :
  completed_dates
    {| habits := []; records := reverse (records scenario_db) |} 1
  ≡ₚ completed_dates scenario_db 1
  ∧ calculate_streak
      {| habits := []; records := reverse (records scenario_db) |} (jan 5) 1
    = calculate_streak scenario_db (jan 5) 1.
Proof.
  assert (Hperm : completed_dates
            {| habits := []; records := reverse (records scenario_db) |} 1
          ≡ₚ completed_dates scenario_db 1).
  { change (completed_dates
              {| habits := []; records := reverse (records scenario_db) |} 1)
      with (reverse (completed_dates scenario_db 1)).
    apply reverse_Permutation. }
  split; [exact Hperm |].
  exact (streak_ignores_table_order _ 1 scenario_db 1 (jan 5) Hperm).
Defined.

(** ** [create_record] *)

Lemma Exists_has_key hid d (rs : list record) :
  Exists (has_key hid d) rs ↔ (hid, d) ∈ record_key <$> rs.
Proof.
  rewrite Exists_exists, list_elem_of_fmap. unfold has_key, record_key.
  split.
  - intros (r & Hr & <- & <-). by exists r.
  - intros (r & Heq & Hr). injection Heq as -> ->. by exists r.
Qed.

Lemma record_key_set_completed hid d c r :
  record_key (set_completed hid d c r) = record_key r.
Proof. unfold set_completed. by destruct (decide (has_key hid d r)). Qed.

Lemma record_keys_update hid d c (rs : list record) :
  record_key <$> (set_completed hid d c <$> rs) = record_key <$> rs.
Proof.
  rewrite <- list_fmap_compose. apply list_fmap_ext.
  intros _ r _. apply record_key_set_completed.
Qed.

(** The rows after the call, in both arms. *)
Lemma create_record_records db today req :
  let hid := req_habit_id req in
  let d := default today (req_date req) in
  let c := default 1 (req_completed req) in
  (¬ Exists (has_key hid d) (records db)
   ∧ create_record db today req
     = ({| habits := habits db; records := records db ++ [Record_ hid d c] |},
        RecordCreated))
  ∨ (Exists (has_key hid d) (records db)
     ∧ create_record db today req = (update_record db hid d c, RecordUpdated)).
Proof.
  intros hid d c. unfold create_record, insert_record. simpl.
  fold hid d c. destruct (decide (Exists (has_key hid d) (records db))); auto.
Qed.

Lemma create_record_unique db today req :
  records_unique db → records_unique (create_record db today req).1.
Proof.
  unfold records_unique. intros Hu.
  change (NoDup (record_key <$> records (create_record db today req).1)).
  change (NoDup (record_key <$> records db)) in Hu.
  destruct (create_record_records db today req) as [[Hno ->] | [_ ->]]; simpl.
  - rewrite fmap_app. apply NoDup_app. split; [done |]. split.
    + intros k Hk Hin. apply list_elem_of_singleton in Hin. subst k.
      by apply Hno, Exists_has_key.
    + apply NoDup_singleton.
  - by rewrite record_keys_update.
Qed.

(** The upsert keeps [UNIQUE(habit_id, date)], leaves the habits alone
    and adds at most one row. *)
Theorem create_record_keeps_unique db today req :
  records_unique db →
  records_unique (create_record db today req).1
  ∧ habits (create_record db today req).1 = habits db
  ∧ (length (records db) ≤ length (records (create_record db today req).1)
     ≤ S (length (records db)))%nat.
Proof.
  intros Hu. split; [by apply create_record_unique |].
  destruct (create_record_records db today req) as [[_ ->] | [_ ->]]; simpl.
  - split; [done |]. rewrite length_app. simpl. lia.
  - split; [done |]. rewrite length_fmap. lia.
Qed.

Lemma create_record_keeps_unique_witness :
  records_unique scenario_db
  ∧ records_unique
      (create_record scenario_db (jan 5) (RecordRequest 1 (Some (jan 4)) None)).1
  ∧ habits (create_record scenario_db (jan 5)
              (RecordRequest 1 (Some (jan 4)) None)).1
    = habits scenario_db
  ∧ (length (records scenario_db)
     ≤ length (records (create_record scenario_db (jan 5)
                          (RecordRequest 1 (Some (jan 4)) None)).1)
     ≤ S (length (records scenario_db)))%nat.
Proof.
  assert (Hu : records_unique scenario_db).
  { unfold records_unique. apply (bool_decide_unpack _). by vm_compute. }
  split; [exact Hu |].
  exact (create_record_keeps_unique scenario_db (jan 5)
           (RecordRequest 1 (Some (jan 4)) None) Hu).
Defined.

Lemma elem_of_completed_dates db hid x :
  x ∈ completed_dates db hid
  ↔ ∃ r, r ∈ records db ∧ habit_id r = hid ∧ completed r = 1 ∧ rdate r = x.
Proof.
  unfold completed_dates. rewrite list_elem_of_fmap.
  unfold is_completed_of. split.
  - intros (r & -> & Hr). apply list_elem_of_filter in Hr as [[? ?] ?]. by exists r.
  - intros (r & Hr & ? & ? & <-). exists r. split; [done |].
    by apply list_elem_of_filter.
Qed.






(** A query on the rows of another habit sees the same rows after the
    call. *)
Lemma create_record_filter_other (P : record → Prop) `{!∀ r, Decision (P r)}
    db today req :
  (∀ r, P r → habit_id r ≠ req_habit_id req) →
  filter P (records (create_record db today req).1) = filter P (records db).
Proof.
  intros HP.
  destruct (create_record_records db today req) as [[_ ->] | [_ ->]]; simpl.
  - rewrite filter_app, filter_cons, decide_False, filter_nil, app_nil_r; [done |].
    intros Hp. by apply HP in Hp.
  - induction (records db) as [|r rs IH]; [done |].
    rewrite fmap_cons, !filter_cons, IH. unfold set_completed.
    destruct (decide (has_key _ _ r)) as [[Hk _] | _]; [| done].
    rewrite !decide_False; [done | |].
    + intros Hp. by apply HP in Hp.
    + intros Hp. by apply HP in Hp.
Qed.

(** Recording a day for one habit changes no statistic of another. *)
Theorem create_record_leaves_other_habits db today req now hid days :
  hid ≠ req_habit_id req →
  calculate_streak (create_record db today req).1 now hid
  = calculate_streak db now hid
  ∧ get_completion_rate (create_record db today req).1 now hid days
    = get_completion_rate db now hid days
  ∧ get_best_weekday (create_record db today req).1 hid
    = get_best_weekday db hid.
Proof.
  intros Hne.
  assert (Hdates : completed_dates (create_record db today req).1 hid
                   = completed_dates db hid).
  { unfold completed_dates. rewrite create_record_filter_other; [done |].
    intros r [Hh _]. congruence. }
  split; [| split].
  - unfold calculate_streak, select_completed_desc. by rewrite Hdates.
  - unfold get_completion_rate, count_completed_since.
    rewrite create_record_filter_other; [done |]. intros r [Hh _]. congruence.
  - assert (Hcount : ∀ w, weekday_count (create_record db today req).1 hid w
                          = weekday_count db hid w).
    { intros w. unfold weekday_count.
      rewrite create_record_filter_other; [done |]. intros r [[Hh _] _]. congruence. }
    unfold get_best_weekday, select_best_weekday, group_by_weekday.
    simpl fmap. by rewrite !Hcount.
Qed.

Lemma create_record_leaves_other_habits_witness :
  2 ≠ req_habit_id (RecordRequest 1 None None)
  ∧ calculate_streak
      (create_record scenario_db (jan 6) (RecordRequest 1 None None)).1 (jan 6) 2
    = calculate_streak scenario_db (jan 6) 2
  ∧ get_completion_rate
      (create_record scenario_db (jan 6) (RecordRequest 1 None None)).1 (jan 6) 2 30
    = get_completion_rate scenario_db (jan 6) 2 30
  ∧ get_best_weekday
      (create_record scenario_db (jan 6) (RecordRequest 1 None None)).1 2
    = get_best_weekday scenario_db 2.
Proof.
  assert (Hne : 2 ≠ req_habit_id (RecordRequest 1 None None)) by discriminate.
  split; [exact Hne |].
  exact (create_record_leaves_other_habits scenario_db (jan 6)
           (RecordRequest 1 None None) (jan 6) 2 30 Hne).
Defined.











(** ** [delete_habit] and [get_habit] *)

Lemma deactivate_hit hid h :
  id h = hid → deactivate hid h = {| id := id h; active := 0 |}.
Proof. intros Hh. unfold deactivate. by rewrite decide_True. Qed.

Lemma deactivate_miss hid h : id h ≠ hid → deactivate hid h = h.
Proof. intros Hh. unfold deactivate. by rewrite decide_False. Qed.

Lemma active_habit_ids_delete db hid :
  active_habit_ids (delete_habit db hid)
  = filter (λ h, h ≠ hid) (active_habit_ids db).
Proof.
  unfold active_habit_ids, delete_habit. simpl.
  induction (habits db) as [|h hs IH]; [done |].
  rewrite fmap_cons, !filter_cons.
  destruct (decide (id h = hid)) as [Hh | Hh].
  - rewrite (deactivate_hit _ _ Hh). simpl. rewrite IH.
    destruct (decide (active h = 1)); [| done].
    rewrite fmap_cons, filter_cons, decide_False; [done |]. by intros ?.
  - rewrite (deactivate_miss _ _ Hh).
    destruct (decide (active h = 1)); [| done].
    by rewrite !fmap_cons, filter_cons, decide_True, IH.
Qed.

(** The soft delete removes the habit from the active ones, and only
    it; the records stay, so every history is as before. *)
Theorem delete_habit_deactivates db hid :
  active_habit_ids (delete_habit db hid)
  = filter (λ h, h ≠ hid) (active_habit_ids db)
  ∧ (hid ∉ active_habit_ids (delete_habit db hid))
  ∧ id <$> habits (delete_habit db hid) = id <$> habits db
  ∧ ∀ h, completed_dates (delete_habit db hid) h = completed_dates db h.
Proof.
  split; [apply active_habit_ids_delete |]. split; [| split].
  - rewrite active_habit_ids_delete, list_elem_of_filter. by intros [? _].
  - unfold delete_habit. simpl. rewrite <- list_fmap_compose.
    apply list_fmap_ext. intros i h _. simpl. unfold deactivate.
    by destruct (decide (id h = hid)).
  - done.
Qed.

Lemma deactivate_idemp hid h : deactivate hid (deactivate hid h) = deactivate hid h.
Proof.
  unfold deactivate. destruct (decide (id h = hid)) as [Hh | Hh]; simpl.
  - by rewrite decide_True.
  - by rewrite decide_False.
Qed.

Lemma deactivate_comm hid1 hid2 h :
  deactivate hid1 (deactivate hid2 h) = deactivate hid2 (deactivate hid1 h).
Proof.
  unfold deactivate.
  destruct (decide (id h = hid1)) as [H1 | H1], (decide (id h = hid2)) as [H2 | H2];
    simpl; rewrite ?decide_True, ?decide_False by done; done.
Qed.

(** Deleting twice is deleting once, and deletions of two habits
    commute. *)
Theorem delete_habit_idempotent_commutes db hid1 hid2 :
  delete_habit (delete_habit db hid1) hid1 = delete_habit db hid1
  ∧ delete_habit (delete_habit db hid1) hid2
    = delete_habit (delete_habit db hid2) hid1.
Proof.
  unfold delete_habit. simpl. split; f_equal;
    rewrite <- !list_fmap_compose; apply list_fmap_ext; intros i h _; simpl.
  - apply deactivate_idemp.
  - apply deactivate_comm.
Qed.

Lemma get_completion_rate_default_Ok db today hid :
  ∃ rate, get_completion_rate_default db today hid = Ok rate.
Proof.
  unfold get_completion_rate_default, get_completion_rate.
  destruct (int_truediv_nonzero
              (count_completed_since db hid (today - 30)) 30) as [q ->]; [lia |].
  by eexists.
Qed.

Lemma get_best_weekday_Ok db hid : ∃ w, get_best_weekday db hid = Ok w.
Proof.
  unfold get_best_weekday.
  destruct (select_best_weekday db hid) as [[w c] |] eqn:Hsel; [| by eexists].
  destruct (select_best_weekday_max db hid w c Hsel) as (Hw & _ & _).
  destruct (py_index_weekdays w Hw) as (label & _ & ->). by eexists.
Qed.

Lemma statistics_of_Ok db today hid : ∃ st, statistics_of db today hid = Ok st.
Proof.
  unfold statistics_of.
  destruct (get_completion_rate_default_Ok db today hid) as [rate ->].
  destruct (get_best_weekday_Ok db hid) as [w ->]. by eexists.
Qed.

Lemma statistics_of_bounded_Ok db today hid :
  in_int64 hid → in_calendar today → in_calendar (today - 30) →
  ∃ st, statistics_of_bounded db today hid = Ok st.
Proof.
  intros Hh Ht Hs. unfold statistics_of_bounded.
  rewrite get_completion_rate_bounded_in_bounds by done.
  destruct (get_completion_rate_default_Ok db today hid) as [rate Hrate].
  unfold get_completion_rate_default in Hrate. rewrite Hrate.
  destruct (get_best_weekday_Ok db hid) as [w ->]. by eexists.
Qed.

(** For an id that SQLite binds, on a day whose 30-day window starts
    within the calendar, the route answers, and answers 404 exactly when
    no row of [habits] has the id: a habit that was soft-deleted is still
    served.  For an id that SQLite does not bind the route raises
    [OverflowError]. *)
Theorem get_habit_404_iff_unknown db today hid :
  (in_int64 hid → in_calendar today → in_calendar (today - 30) →
   ∃ answer, get_habit_bounded db today hid = Ok answer
             ∧ (answer = None ↔ hid ∉ id <$> habits db))
  ∧ (¬ in_int64 hid → get_habit_bounded db today hid = Err OverflowError).
Proof.
  split.
  - intros Hh Ht Hs. unfold get_habit_bounded. rewrite bind_integer_Ok by done.
    simpl.
    destruct (filter (λ h, id h = hid) (habits db)) as [|row rows] eqn:Hf.
    + exists None. split; [done |]. split; [| done]. intros _ Hin.
      apply list_elem_of_fmap in Hin as (h & Hhid & Hin).
      assert (Hhf : h ∈ filter (λ h, id h = hid) (habits db))
        by (by apply list_elem_of_filter).
      rewrite Hf in Hhf. by apply elem_of_nil in Hhf.
    + destruct (statistics_of_bounded_Ok db today hid Hh Ht Hs) as [st ->].
      exists (Some (row, st)). split; [done |]. split; [done |]. intros Hnot.
      exfalso. apply Hnot.
      assert (Hrow : row ∈ filter (λ h, id h = hid) (habits db))
        by (rewrite Hf; apply list_elem_of_here).
      apply list_elem_of_filter in Hrow as [<- Hrow].
      by apply list_elem_of_fmap_2.
  - intros Hnot. unfold get_habit_bounded. by rewrite bind_integer_Err.
Qed.

Lemma get_habit_404_iff_unknown_witness :
  in_int64 99 ∧ in_calendar (jan 31) ∧ in_calendar (jan 31 - 30)
  ∧ (99 ∉ id <$> habits (delete_habit scenario_db 1))
  ∧ get_habit_bounded (delete_habit scenario_db 1) (jan 31) 99 = Ok None
  ∧ (∃ answer, get_habit_bounded (delete_habit scenario_db 1) (jan 31) 1 = Ok answer
               ∧ answer ≠ None)
  ∧ ¬ in_int64 (2 ^ 63)
  ∧ get_habit_bounded (delete_habit scenario_db 1) (jan 31) (2 ^ 63)
    = Err OverflowError.
Proof.
  assert (H99 : in_int64 99) by (vm_compute; split; [discriminate | reflexivity]).
  assert (H1 : in_int64 1) by (vm_compute; split; [discriminate | reflexivity]).
  assert (Ht : in_calendar (jan 31)) by (vm_compute; split; discriminate).
  assert (Hs : in_calendar (jan 31 - 30)) by (vm_compute; split; discriminate).
  assert (Hunknown : 99 ∉ id <$> habits (delete_habit scenario_db 1)).
  { intros Hin. vm_compute in Hin.
    repeat (apply elem_of_cons in Hin as [Hin | Hin]; [discriminate |]).
    by apply elem_of_nil in Hin. }
  assert (Hknown : ¬ (1 ∉ id <$> habits (delete_habit scenario_db 1))).
  { intros Hnot. apply Hnot. apply list_elem_of_here. }
  assert (Hbig : ¬ in_int64 (2 ^ 63)).
  { intros [_ Hlt]. vm_compute in Hlt. discriminate Hlt. }
  split; [exact H99 |]. split; [exact Ht |]. split; [exact Hs |].
  split; [exact Hunknown |]. split; [| split; [| split; [exact Hbig |]]].
  - destruct (proj1 (get_habit_404_iff_unknown (delete_habit scenario_db 1)
                       (jan 31) 99) H99 Ht Hs) as (answer & Hget & Hiff).
    rewrite Hget. f_equal. by apply Hiff.
  - destruct (proj1 (get_habit_404_iff_unknown (delete_habit scenario_db 1)
                       (jan 31) 1) H1 Ht Hs) as (answer & Hget & Hiff).
    exists answer. split; [exact Hget |]. intros Hnone. apply Hknown.
    by apply Hiff.
  - exact (proj2 (get_habit_404_iff_unknown (delete_habit scenario_db 1)
                    (jan 31) (2 ^ 63)) Hbig).
Defined.

Lemma filter_id_delete db hid :
  filter (λ h, id h = hid) (habits (delete_habit db hid))
  = deactivate hid <$> filter (λ h, id h = hid) (habits db).
Proof.
  unfold delete_habit. simpl.
  induction (habits db) as [|h hs IH]; [done |].
  assert (Hid : id (deactivate hid h) = id h)
    by (unfold deactivate; by destruct (decide (id h = hid))).
  rewrite fmap_cons, !filter_cons, Hid.
  destruct (decide (id h = hid)) as [Hh | Hh]; [| done].
  by rewrite fmap_cons, IH.
Qed.

(** After the soft delete the habit is served with [active = 0] and the
    statistics it had. *)
Theorem get_habit_after_delete db today hid row stats :
  get_habit db today hid = Ok (Some (row, stats)) →
  get_habit (delete_habit db hid) today hid
  = Ok (Some ({| id := hid; active := 0 |}, stats)).
Proof.
  unfold get_habit. intros Hget.
  pose proof (filter_id_delete db hid) as Hf.
  rewrite Hf.
  destruct (filter (λ h, id h = hid) (habits db)) as [|row0 rows] eqn:Hf0;
    [done |].
  assert (Hrow : row0 ∈ filter (λ h, id h = hid) (habits db))
    by (rewrite Hf0; apply list_elem_of_here).
  apply list_elem_of_filter in Hrow as [Hid _].
  change (statistics_of (delete_habit db hid) today hid)
    with (statistics_of db today hid).
  rewrite fmap_cons.
  destruct (statistics_of db today hid) as [st | e]; [| done].
  simpl in Hget |- *. injection Hget as _ <-.
  unfold deactivate. rewrite decide_True by done. by rewrite Hid.
Qed.

Lemma get_habit_after_delete_witness :
  ∃ row stats,
    get_habit scenario_db (jan 5) 1 = Ok (Some (row, stats))
    ∧ stat_streak stats = {| current := 1; best := 3 |}
    ∧ get_habit (delete_habit scenario_db 1) (jan 5) 1
      = Ok (Some ({| id := 1; active := 0 |}, stats)).
Proof.
  eexists _, _.
  assert (Hget : get_habit scenario_db (jan 5) 1
                 = Ok (Some (Habit 1 1,
                             {| stat_streak := {| current := 1; best := 3 |};
                                stat_completion_rate :=
                                  PyFloat.round
                                    (PyFloat.mul
                                       (PyFloat.nearest_quotient false 4 30)
                                       (PyFloat.of_int 100)) 1;
                                stat_best_weekday := Some "Sexta"%string |})))
    by reflexivity.
  split; [exact Hget |]. split; [reflexivity |].
  exact (get_habit_after_delete scenario_db (jan 5) 1 _ _ Hget).
Defined.

(** ** The overview after a soft delete *)

Lemma get_overview_stats_Ok db today :
  ∃ ov, get_overview_stats db today = Ok ov
        ∧ total_habits ov = count_active_habits db
        ∧ completed_today ov = count_completed_today db today
        ∧ total_completions ov = count_completions db.
Proof.
  unfold get_overview_stats.
  assert (Hlen : count_active_habits db = Z.of_nat (length (active_habit_ids db)))
    by apply count_active_habits_length.
  destruct (active_habit_ids db) as [|hid0 hids] eqn:Hids.
  - simpl in Hlen. rewrite Hlen. simpl. by eexists.
  - assert (Hn : 0 < count_active_habits db) by (rewrite Hlen; simpl; lia).
    destruct (int_truediv_nonzero
                (sum_current_streaks db today (hid0 :: hids))
                (Z.of_nat (length (hid0 :: hids)))) as [qa ->]; [simpl; lia |].
    destruct (int_truediv_nonzero (count_completed_today db today)
                (count_active_habits db)) as [qr Hqr]; [lia |].
    simpl. replace (0 <? count_active_habits db) with true
      by (symmetry; apply Z.ltb_lt; lia).
    rewrite Hqr. simpl. by eexists.
Qed.

(** The overview counts today's completions over all records, active
    habit or not: a soft delete lowers the number of habits but leaves
    [completed_today] and the total of completions as they were. *)
Theorem overview_after_delete db today hid :
  ∃ before after,
    get_overview_stats db today = Ok before
    ∧ get_overview_stats (delete_habit db hid) today = Ok after
    ∧ completed_today after = completed_today before
    ∧ total_completions after = total_completions before
    ∧ total_habits after ≤ total_habits before
    ∧ (hid ∈ active_habit_ids db → total_habits after < total_habits before).
Proof.
  destruct (get_overview_stats_Ok db today) as (ov & Hov & Ht & Hc & Hn).
  destruct (get_overview_stats_Ok (delete_habit db hid) today)
    as (ov' & Hov' & Ht' & Hc' & Hn').
  exists ov, ov'. split; [done |]. split; [done |].
  split; [by rewrite Hc, Hc' |]. split; [by rewrite Hn, Hn' |].
  rewrite Ht, Ht', !count_active_habits_length, active_habit_ids_delete.
  split.
  - pose proof (length_filter (λ h, h ≠ hid) (active_habit_ids db)). lia.
  - intros Hin.
    pose proof (length_filter_lt (λ h, h ≠ hid) (active_habit_ids db) hid Hin).
    assert (¬ hid ≠ hid) by (intros ?; done). lia.
Qed.

(** ** [get_records] and [get_heatmap] *)

(** Under [UNIQUE(habit_id, date)] the rows a query selects for one
    habit have distinct dates. *)
Lemma habit_rows_dates_NoDup (P : record → Prop) `{!∀ r, Decision (P r)} db hid :
  (∀ r, P r → habit_id r = hid) →
  records_unique db → NoDup (rdate <$> filter P (records db)).
Proof.
  intros HP. unfold records_unique.
  induction (records db) as [|r rs IH]; intros Hu; [constructor |].
  simpl in Hu. apply NoDup_cons in Hu as [Hr Hrs].
  rewrite filter_cons. destruct (decide (P r)) as [Hp | _]; [| by apply IH].
  rewrite fmap_cons. apply NoDup_cons. split; [| by apply IH].
  intros Hin. apply list_elem_of_fmap in Hin as (r2 & Hd & Hin2).
  apply list_elem_of_filter in Hin2 as [Hp2 Hin2].
  apply Hr. apply list_elem_of_fmap. exists r2. split; [| done].
  by rewrite Hd, (HP _ Hp), (HP _ Hp2).
Qed.

Lemma NoDup_fmap_inj_on {A B} (f : A → B) (l : list A) x y :
  NoDup (f <$> l) → x ∈ l → y ∈ l → f x = f y → x = y.
Proof.
  induction l as [|z l IH]; intros Hnd Hx Hy Hf.
  { by apply elem_of_nil in Hx. }
  rewrite fmap_cons in Hnd. apply NoDup_cons in Hnd as [Hz Hnd].
  apply elem_of_cons in Hx as [-> | Hx], Hy as [-> | Hy]; [done | | | by apply IH].
  - exfalso. apply Hz. rewrite Hf. by apply list_elem_of_fmap_2.
  - exfalso. apply Hz. rewrite <- Hf. by apply list_elem_of_fmap_2.
Qed.

Lemma StronglySorted_strict {A} (f : A → Z) (l : list A) :
  StronglySorted (λ a b, f a ≤ f b) l → NoDup (f <$> l) →
  StronglySorted (λ a b, f a < f b) l.
Proof.
  induction l as [|x l IH]; intros Hs Hnd; [constructor |].
  apply StronglySorted_cons in Hs as [Hall Hs].
  rewrite fmap_cons in Hnd. apply NoDup_cons in Hnd as [Hx Hnd].
  constructor; [by apply IH |].
  rewrite Forall_forall in Hall |- *. intros y Hy. specialize (Hall y Hy).
  assert (f x ≠ f y); [| lia].
  intros Heq. apply Hx. rewrite Heq. by apply list_elem_of_fmap_2.
Qed.

Lemma get_heatmap_Permutation db today hid :
  get_heatmap db today hid
  ≡ₚ cell_of <$> filter (in_window hid (today - 365)) (records db).
Proof. apply merge_sort_Permutation. Qed.

Lemma get_heatmap_dates_NoDup db today hid :
  records_unique db → NoDup ((λ c, c.1) <$> get_heatmap db today hid).
Proof.
  intros Hu. rewrite get_heatmap_Permutation, <- list_fmap_compose.
  apply (habit_rows_dates_NoDup _ db hid); [| done]. by intros r [? _].
Qed.

Lemma get_heatmap_bounded_in_bounds db today hid :
  in_int64 hid → in_calendar today → in_calendar (today - 365) →
  get_heatmap_bounded db today hid = Ok (get_heatmap db today hid).
Proof.
  intros Hh Ht Hs. unfold get_heatmap_bounded.
  by rewrite sub_days_Ok, bind_integer_Ok.
Qed.

(** Under [UNIQUE(habit_id, date)], for an id that SQLite binds and a day
    at least 365 days into the calendar, the heatmap returns exactly the
    rows of the habit dated [today - 365] or later, rows dated after today
    included, one cell per date and by ascending date. *)
Theorem heatmap_one_cell_per_date db today hid :
  records_unique db →
  in_int64 hid → in_calendar today → in_calendar (today - 365) →
  ∃ cells,
    get_heatmap_bounded db today hid = Ok cells
    ∧ StronglySorted (λ c1 c2, c1.1 < c2.1) cells
    ∧ ∀ d c, (d, c) ∈ cells
             ↔ Record_ hid d c ∈ records db ∧ today - 365 ≤ d.
Proof.
  intros Hu Hh Ht Hs. exists (get_heatmap db today hid).
  split; [by apply get_heatmap_bounded_in_bounds |]. split.
  - apply (StronglySorted_strict (λ c, c.1)); [| by apply get_heatmap_dates_NoDup].
    apply (StronglySorted_merge_sort cell_date_asc).
  - intros d c. rewrite get_heatmap_Permutation, list_elem_of_fmap. split.
    + intros (r & Heq & Hr). apply list_elem_of_filter in Hr as [[Hhid Hw] Hr].
      destruct r as [h d0 c0]. unfold cell_of in Heq. simpl in *.
      injection Heq as -> ->. by subst h.
    + intros [Hr Hw]. exists (Record_ hid d c). split; [done |].
      apply list_elem_of_filter. by split.
Qed.

Lemma heatmap_one_cell_per_date_witness :
  records_unique (future_db (jan 10))
  ∧ in_int64 1 ∧ in_calendar (jan 10) ∧ in_calendar (jan 10 - 365)
  ∧ ∃ cells,
      get_heatmap_bounded (future_db (jan 10)) (jan 10) 1 = Ok cells
      ∧ StronglySorted (λ c1 c2, c1.1 < c2.1) cells
      ∧ ((jan 11, 1) ∈ cells)
      ∧ ∀ d c, (d, c) ∈ cells
               ↔ Record_ 1 d c ∈ records (future_db (jan 10)) ∧ jan 10 - 365 ≤ d.
Proof.
  assert (Hu : records_unique (future_db (jan 10))).
  { unfold records_unique. apply (bool_decide_unpack _). by vm_compute. }
  assert (Hh : in_int64 1) by (vm_compute; split; [discriminate | reflexivity]).
  assert (Ht : in_calendar (jan 10)) by (vm_compute; split; discriminate).
  assert (Hs : in_calendar (jan 10 - 365)) by (vm_compute; split; discriminate).
  split; [exact Hu |]. split; [exact Hh |]. split; [exact Ht |].
  split; [exact Hs |].
  destruct (heatmap_one_cell_per_date (future_db (jan 10)) (jan 10) 1 Hu Hh Ht Hs)
    as (cells & Hget & Hsorted & Hiff).
  exists cells. split; [exact Hget |]. split; [exact Hsorted |].
  split; [| exact Hiff].
  apply Hiff. split; [| vm_compute; discriminate].
  apply list_elem_of_further, list_elem_of_here.
Defined.

(** The completed rows that [get_records] lists for a window are the
    ones the completion rate counts: the rate of a window of [days] days
    is the formula on the number of rows listed with [completed = 1]. *)
Theorem records_listed_are_rate_numerator db today hid days :
  Z.of_nat (length (filter (λ r, completed r = 1)
                      (get_records db today hid (Some days))))
  = count_completed_since db hid (today - days)
  ∧ get_completion_rate db today hid days
    = Spec.rate
        (Z.of_nat (length (filter (λ r, completed r = 1)
                             (get_records db today hid (Some days)))))
        days.
Proof.
  assert (Hcount : Z.of_nat (length (filter (λ r, completed r = 1)
                                       (get_records db today hid (Some days))))
                   = count_completed_since db hid (today - days)).
  { unfold get_records, count_completed_since. simpl. f_equal.
    rewrite (Permutation_length
               (filter_Permutation _ _ _ (merge_sort_Permutation _ _))).
    rewrite list_filter_filter. f_equal.
    apply list_filter_iff. intros r. unfold in_window. tauto. }
  split; [done |]. unfold get_completion_rate, Spec.rate. by rewrite Hcount.
Qed.

(** The heatmap is the list of [get_records] over 365 days, read from
    its last row to its first and cut down to the two columns. *)
Theorem heatmap_is_reversed_records db today hid :
  records_unique db →
  get_heatmap db today hid
  = reverse (cell_of <$> get_records db today hid (Some 365)).
Proof.
  intros Hu.
  set (rows := filter (in_window hid (today - 365)) (records db)).
  assert (Hperm : reverse (cell_of <$> get_records db today hid (Some 365))
                  ≡ₚ cell_of <$> rows).
  { rewrite reverse_Permutation. unfold get_records. simpl. fold rows.
    by rewrite (merge_sort_Permutation row_date_desc rows). }
  assert (Hnd : NoDup ((λ c : date * Z, c.1) <$> (cell_of <$> rows))).
  { rewrite <- list_fmap_compose.
    apply (habit_rows_dates_NoDup _ db hid); [| done]. by intros r [? _]. }
  apply (StronglySorted_unique_strong cell_date_asc).
  - intros c1 c2 Hc1 Hc2 H12 H21. unfold cell_date_asc in *.
    rewrite get_heatmap_Permutation in Hc1. fold rows in Hc1.
    rewrite Hperm in Hc2.
    apply (NoDup_fmap_inj_on (λ c : date * Z, c.1) (cell_of <$> rows));
      [done | done | done | lia].
  - apply (StronglySorted_merge_sort cell_date_asc).
  - apply (Sorted_StronglySorted _).
    apply (Sorted_reverse (λ c1 c2 : date * Z, c2.1 ≤ c1.1)).
    apply (Sorted_fmap _ row_date_desc); [by intros r1 r2 |].
    apply (Sorted_merge_sort row_date_desc).
  - rewrite Hperm. apply get_heatmap_Permutation.
Qed.

Lemma heatmap_is_reversed_records_witness :
  records_unique scenario_db
  ∧ get_heatmap scenario_db (jan 5) 1
    = reverse (cell_of <$> get_records scenario_db (jan 5) 1 (Some 365)).
Proof.
  assert (Hu : records_unique scenario_db).
  { unfold records_unique. apply (bool_decide_unpack _). by vm_compute. }
  split; [exact Hu |].
  exact (heatmap_is_reversed_records scenario_db (jan 5) 1 Hu).
Defined.

(** ** [get_comparison_stats] *)

Lemma insert_by_streak_Permutation x l : insert_by_streak x l ≡ₚ x :: l.
Proof.
  induction l as [|y l IH]; simpl; [done |].
  destruct (decide (cmp_current_streak y ≤ cmp_current_streak x)); [done |].
  by rewrite IH, Permutation_swap.
Qed.

Lemma sort_by_streak_desc_Permutation l : sort_by_streak_desc l ≡ₚ l.
Proof.
  induction l as [|x l IH]; simpl; [done |].
  by rewrite insert_by_streak_Permutation, IH.
Qed.

Lemma insert_by_streak_sorted x l :
  StronglySorted streak_desc l → StronglySorted streak_desc (insert_by_streak x l).
Proof.
  induction l as [|y l IH]; intros Hs; simpl.
  { repeat constructor. }
  pose proof Hs as Hs0. apply StronglySorted_cons in Hs as [Hall Hs].
  destruct (decide (cmp_current_streak y ≤ cmp_current_streak x)) as [Hle | Hgt].
  - constructor; [done |]. constructor; [done |].
    rewrite Forall_forall in Hall |- *. intros z Hz. specialize (Hall z Hz).
    unfold streak_desc in *. lia.
  - constructor; [by apply IH |].
    rewrite Forall_forall in Hall |- *. intros z Hz.
    rewrite insert_by_streak_Permutation in Hz.
    apply elem_of_cons in Hz as [-> | Hz]; [unfold streak_desc; lia | by apply Hall].
Qed.

Lemma sort_by_streak_desc_sorted l :
  StronglySorted streak_desc (sort_by_streak_desc l).
Proof.
  induction l as [|x l IH]; simpl; [constructor | by apply insert_by_streak_sorted].
Qed.

(** Stability: the entries of one key keep their order. *)
Lemma insert_by_streak_stable k x l :
  filter (λ e, cmp_current_streak e = k) (insert_by_streak x l)
  = filter (λ e, cmp_current_streak e = k) (x :: l).
Proof.
  induction l as [|y l IH]; simpl; [done |].
  destruct (decide (cmp_current_streak y ≤ cmp_current_streak x)) as [Hle | Hgt];
    [done |].
  rewrite (filter_cons _ y), IH, !filter_cons.
  destruct (decide (cmp_current_streak y = k)) as [Hy | Hy]; [| done].
  by rewrite !decide_False by lia.
Qed.

Lemma sort_by_streak_desc_stable k l :
  filter (λ e, cmp_current_streak e = k) (sort_by_streak_desc l)
  = filter (λ e, cmp_current_streak e = k) l.
Proof.
  induction l as [|x l IH]; simpl; [done |].
  by rewrite insert_by_streak_stable, !filter_cons, IH.
Qed.

Lemma comparison_of_Ok db today hid :
  ∃ e, comparison_of db today hid = Ok e
       ∧ cmp_id e = hid
       ∧ cmp_current_streak e = current (calculate_streak db today hid)
       ∧ cmp_best_streak e = best (calculate_streak db today hid)
       ∧ get_completion_rate db today hid 30 = Ok (cmp_completion_rate_30d e).
Proof.
  unfold comparison_of.
  destruct (get_completion_rate_default_Ok db today hid) as [rate Hrate].
  unfold get_completion_rate_default in Hrate. rewrite Hrate. by eexists.
Qed.

Lemma mapM_comparison_of db today ids :
  ∃ l, mapM (comparison_of db today) ids = Ok l
       ∧ Forall2 (λ hid e, comparison_of db today hid = Ok e) ids l.
Proof.
  induction ids as [|hid ids (l & Hl & Hall)]; simpl.
  { exists []. split; [done | constructor]. }
  destruct (comparison_of_Ok db today hid) as (e & He & _).
  rewrite He. simpl. rewrite Hl. simpl.
  exists (e :: l). split; [done | by constructor].
Qed.

Lemma comparison_entries db today ids l :
  Forall2 (λ hid e, comparison_of db today hid = Ok e) ids l →
  cmp_id <$> l = ids
  ∧ Forall (λ e,
      cmp_current_streak e = current (calculate_streak db today (cmp_id e))
      ∧ cmp_best_streak e = best (calculate_streak db today (cmp_id e))
      ∧ get_completion_rate db today (cmp_id e) 30
        = Ok (cmp_completion_rate_30d e)) l.
Proof.
  induction 1 as [|hid e ids l He _ [IHid IHall]]; [by split |].
  destruct (comparison_of_Ok db today hid) as (e2 & He2 & Hid & Hc & Hb & Hr).
  rewrite He in He2. injection He2 as <-.
  split; [by rewrite fmap_cons, Hid, IHid |].
  constructor; [by rewrite Hid | done].
Qed.

(** The comparison always answers, with one entry per active habit that
    carries the habit's streaks and 30-day rate, the largest current
    streak first. *)
Theorem comparison_sorted_by_streak db today :
  ∃ entries,
    get_comparison_stats db today = Ok entries
    ∧ cmp_id <$> entries ≡ₚ active_habit_ids db
    ∧ Forall (λ e,
        cmp_current_streak e = current (calculate_streak db today (cmp_id e))
        ∧ cmp_best_streak e = best (calculate_streak db today (cmp_id e))
        ∧ get_completion_rate db today (cmp_id e) 30
          = Ok (cmp_completion_rate_30d e)) entries
    ∧ StronglySorted
        (λ e1 e2, cmp_current_streak e2 ≤ cmp_current_streak e1) entries.
Proof.
  unfold get_comparison_stats.
  destruct (mapM_comparison_of db today (active_habit_ids db)) as (l & -> & Hall).
  destruct (comparison_entries db today _ l Hall) as [Hids Hentries].
  exists (sort_by_streak_desc l). split; [done |]. split; [| split].
  - by rewrite sort_by_streak_desc_Permutation, Hids.
  - rewrite Forall_forall in Hentries |- *. intros e He. apply Hentries.
    by rewrite sort_by_streak_desc_Permutation in He.
  - apply sort_by_streak_desc_sorted.
Qed.

(** Habits with the same current streak stay in the order of the
    [habits] table. *)
Theorem comparison_keeps_order_of_ties db today k :
  ∃ entries,
    get_comparison_stats db today = Ok entries
    ∧ cmp_id <$> filter (λ e, cmp_current_streak e = k) entries
      = filter (λ hid, current (calculate_streak db today hid) = k)
          (active_habit_ids db).
Proof.
  unfold get_comparison_stats.
  destruct (mapM_comparison_of db today (active_habit_ids db)) as (l & -> & Hall).
  exists (sort_by_streak_desc l). split; [done |].
  rewrite sort_by_streak_desc_stable.
  induction Hall as [|hid e ids l He _ IH]; [done |].
  destruct (comparison_of_Ok db today hid) as (e2 & He2 & Hid & Hc & _).
  rewrite He in He2. injection He2 as <-.
  rewrite !filter_cons, Hc.
  destruct (decide (current (calculate_streak db today hid) = k)); [| done].
  by rewrite fmap_cons, Hid, IH.
Qed.

(** ** The [completed_today] field *)

Lemma has_key_rows_unique db hid d r1 r2 :
  records_unique db →
  r1 ∈ records db → r2 ∈ records db →
  has_key hid d r1 → has_key hid d r2 → r1 = r2.
Proof.
  intros Hu H1 H2 [Hh1 Hd1] [Hh2 Hd2].
  apply (NoDup_fmap_inj_on record_key (records db)); [done | done | done |].
  unfold record_key. congruence.
Qed.

(** The flag that [get_habits] shows and the history agree: a habit whose
    history holds today is shown as completed today, and, when every
    [completed] stored is 0 or 1, only such a habit is. *)
Theorem completed_today_agrees_with_history db today hid :
  records_unique db →
  (today ∈ completed_dates db hid → completed_today_flag db today hid = true)
  ∧ ((∀ r, r ∈ records db → completed r = 0 ∨ completed r = 1) →
     completed_today_flag db today hid = true →
     today ∈ completed_dates db hid).
Proof.
  intros Hu. unfold completed_today_flag. split.
  - intros Hin. apply elem_of_completed_dates in Hin as (r & Hr & Hh & Hc & Hd).
    assert (Hrf : r ∈ filter (has_key hid today) (records db)).
    { apply list_elem_of_filter. by split. }
    destruct (filter (has_key hid today) (records db)) as [|r0 rest] eqn:Hf.
    { by apply elem_of_nil in Hrf. }
    assert (Hr0 : r0 ∈ filter (has_key hid today) (records db))
      by (rewrite Hf; apply list_elem_of_here).
    apply list_elem_of_filter in Hr0 as [Hk0 Hr0].
    rewrite (has_key_rows_unique db hid today r0 r Hu Hr0 Hr Hk0); [| by split].
    apply bool_decide_eq_true. lia.
  - intros Hflags Hflag.
    destruct (filter (has_key hid today) (records db)) as [|r0 rest] eqn:Hf;
      [done |].
    assert (Hr0 : r0 ∈ filter (has_key hid today) (records db))
      by (rewrite Hf; apply list_elem_of_here).
    apply list_elem_of_filter in Hr0 as [[Hh Hd] Hr0].
    apply bool_decide_eq_true in Hflag.
    apply elem_of_completed_dates. exists r0.
    destruct (Hflags r0 Hr0); [done | done].
Qed.

Lemma completed_today_agrees_with_history_witness :
  records_unique scenario_db
  ∧ (jan 5 ∈ completed_dates scenario_db 1)
  ∧ completed_today_flag scenario_db (jan 5) 1 = true
  ∧ (∀ r, r ∈ records scenario_db → completed r = 0 ∨ completed r = 1)
  ∧ completed_today_flag scenario_db (jan 3) 1 = true
  ∧ (jan 3 ∈ completed_dates scenario_db 1).
Proof.
  assert (Hu : records_unique scenario_db).
  { unfold records_unique. apply (bool_decide_unpack _). by vm_compute. }
  assert (Hin : jan 5 ∈ completed_dates scenario_db 1).
  { do 2 apply list_elem_of_further. apply list_elem_of_here. }
  assert (Hflags : ∀ r, r ∈ records scenario_db → completed r = 0 ∨ completed r = 1).
  { intros r Hr. unfold scenario_db in Hr. simpl in Hr.
    repeat (apply elem_of_cons in Hr as [-> | Hr]; [simpl; auto |]).
    by apply elem_of_nil in Hr. }
  assert (Hflag : completed_today_flag scenario_db (jan 3) 1 = true) by reflexivity.
  split; [exact Hu |]. split; [exact Hin |].
  split.
  { exact (proj1 (completed_today_agrees_with_history scenario_db (jan 5) 1 Hu) Hin). }
  split; [exact Hflags |]. split; [exact Hflag |].
  exact (proj2 (completed_today_agrees_with_history scenario_db (jan 3) 1 Hu)
           Hflags Hflag).
Defined.

(** ** Categories *)

Lemma insert_or_ignore_category_cases table c :
  (cat_name c ∈ cat_name <$> table ∧ insert_or_ignore_category table c = table)
  ∨ ((cat_name c ∉ cat_name <$> table)
     ∧ insert_or_ignore_category table c = table ++ [c]).
Proof.
  unfold insert_or_ignore_category, insert_category.
  destruct (decide (cat_name c ∈ cat_name <$> table)); auto.
Qed.

Lemma insert_or_ignore_category_names table c :
  NoDup (cat_name <$> table) →
  NoDup (cat_name <$> insert_or_ignore_category table c).
Proof.
  intros Hnd.
  destruct (insert_or_ignore_category_cases table c) as [[_ ->] | [Hnot ->]];
    [done |].
  rewrite fmap_app. apply NoDup_app. split; [done |]. split; [| apply NoDup_singleton].
  intros x Hx Hin. apply list_elem_of_singleton in Hin. by subst x.
Qed.

(** The loop of [INSERT OR IGNORE] over any list of rows. *)
Lemma foldl_insert_or_ignore rows table :
  (∃ added, foldl insert_or_ignore_category table rows = table ++ added)
  ∧ (∀ c, c ∈ rows →
          cat_name c ∈ cat_name <$> foldl insert_or_ignore_category table rows)
  ∧ (NoDup (cat_name <$> table) →
     NoDup (cat_name <$> foldl insert_or_ignore_category table rows))
  ∧ ((∀ c, c ∈ rows → cat_name c ∈ cat_name <$> table) →
     foldl insert_or_ignore_category table rows = table).
Proof.
  revert table. induction rows as [|c rows IH]; intros table; simpl.
  { split; [exists []; by rewrite app_nil_r |]. split; [| done].
    intros c Hc. by apply elem_of_nil in Hc. }
  destruct (IH (insert_or_ignore_category table c))
    as ((added & Hadded) & Hnames & Hnd & Hnoop).
  assert (Hpre : ∃ a, insert_or_ignore_category table c = table ++ a).
  { destruct (insert_or_ignore_category_cases table c) as [[_ ->] | [_ ->]];
      [exists []; by rewrite app_nil_r | by eexists]. }
  destruct Hpre as [a Ha].
  split; [| split; [| split]].
  - exists (a ++ added). by rewrite Hadded, Ha, app_assoc.
  - intros c2 Hc2. apply elem_of_cons in Hc2 as [-> | Hc2]; [| by apply Hnames].
    rewrite Hadded, fmap_app, elem_of_app. left.
    destruct (insert_or_ignore_category_cases table c) as [[Hin ->] | [_ ->]];
      [done |].
    rewrite fmap_app, elem_of_app. right. apply list_elem_of_here.
  - intros Hu. by apply Hnd, insert_or_ignore_category_names.
  - intros Hall.
    destruct (insert_or_ignore_category_cases table c) as [[_ Heq] | [Hnot _]].
    + rewrite Heq in Hnoop |- *. apply Hnoop. intros c2 Hc2.
      by apply Hall, list_elem_of_further.
    + exfalso. apply Hnot, Hall, list_elem_of_here.
Qed.

(** [init_db] keeps the rows that are there, adds the default categories
    whose name is missing, keeps [name] unique, and does nothing when run
    a second time. *)
Theorem init_categories_idempotent table :
  (∃ added, init_categories table = table ++ added)
  ∧ (∀ c, c ∈ default_categories →
          cat_name c ∈ cat_name <$> init_categories table)
  ∧ (NoDup (cat_name <$> table) → NoDup (cat_name <$> init_categories table))
  ∧ init_categories (init_categories table) = init_categories table.
Proof.
  unfold init_categories.
  destruct (foldl_insert_or_ignore default_categories table)
    as (Hadded & Hnames & Hnd & _).
  split; [done |]. split; [done |]. split; [done |].
  by apply (foldl_insert_or_ignore default_categories).
Qed.

(** [create_category] keeps [name] unique: a name that is taken is
    answered 400 and the table is left as it is; a new name is appended
    and answered 201. *)
Theorem create_category_keeps_names_unique table req :
  NoDup (cat_name <$> table) →
  NoDup (cat_name <$> (create_category table req).1)
  ∧ ((create_category table req).2 = CategoryExists
     ↔ creq_name req ∈ cat_name <$> table)
  ∧ ((create_category table req).2 = CategoryExists →
     (create_category table req).1 = table)
  ∧ ((create_category table req).2 = CategoryCreated →
     ∃ row, (create_category table req).1 = table ++ [row]
            ∧ cat_name row = creq_name req)
  ∧ creq_name req ∈ cat_name <$> (create_category table req).1.
Proof.
  intros Hnd. unfold create_category, insert_category. simpl.
  destruct (decide (creq_name req ∈ cat_name <$> table)) as [Hin | Hnot]; simpl.
  - repeat split; try done.
  - split.
    { rewrite fmap_app. apply NoDup_app. split; [done |].
      split; [| apply NoDup_singleton].
      intros x Hx Hin. apply list_elem_of_singleton in Hin. by subst x. }
    split; [split; [done | intros; done] |]. split; [done |].
    split; [intros _; by eexists |].
    rewrite fmap_app, elem_of_app. right. apply list_elem_of_here.
Qed.

Lemma create_category_keeps_names_unique_witness :
  NoDup (cat_name <$> init_categories [])
  ∧ NoDup (cat_name <$>
             (create_category (init_categories [])
                (CategoryRequest "Estudo" None None)).1)
  ∧ (create_category (init_categories [])
       (CategoryRequest "Estudo" None None)).2 = CategoryExists
  ∧ (create_category (init_categories [])
       (CategoryRequest "Estudo" None None)).1 = init_categories [].
Proof.
  assert (Hnd : NoDup (cat_name <$> init_categories [])).
  { apply (bool_decide_unpack _). by vm_compute. }
  split; [exact Hnd |].
  destruct (create_category_keeps_names_unique (init_categories [])
              (CategoryRequest "Estudo" None None) Hnd) as (Hu & Hiff & Hsame & _).
  split; [exact Hu |].
  assert (Hex : (create_category (init_categories [])
                   (CategoryRequest "Estudo" None None)).2 = CategoryExists)
    by reflexivity.
  split; [exact Hex | exact (Hsame Hex)].
Defined.
